(** * The incremental image cache of the Altair gallery extension

    A shallow embedding of [make_images] from
    [doc/sphinxext/altair_ext/altairgallery.py] and of the helpers it
    calls, followed by the properties of the hash ledger that the
    documentation of the extension relies on.

    The function is imperative: it reads and writes files, keeps two
    mutable locals ([hashes] and [can_save]), calls an external renderer
    and may raise.  It is modelled in a state-and-exception monad over a
    record holding the file system, the state of the outside world, the
    two locals and a chronological log of the observable calls. *)

From Stdlib Require Import ZArith Ascii String List DecimalString DecimalN DecimalPos SpecFloat.
From stdpp Require Import base option gmap strings list sorting.

Local Open Scope Z_scope.

(** ** Python strings and numbers *)

Module Py.

(** [str.lstrip(chars)], [str.rstrip(chars)] and [str.strip(chars)] on
    the characters of a string. *)
Fixpoint lstrip (chars x : list ascii) : list ascii :=
  match x with
  | [] => []
  | c :: x' => if bool_decide (c ∈ chars) then lstrip chars x' else x
  end.

Definition rstrip (chars x : list ascii) : list ascii :=
  rev (lstrip chars (rev x)).

Definition strip (chars x : string) : string :=
  let cs := list_ascii_of_string chars in
  string_of_list_ascii (rstrip cs (lstrip cs (list_ascii_of_string x))).

(** The white space of ASCII, which [int] ignores around a numeral. *)
Definition whitespace : list ascii :=
  ["009"; "010"; "011"; "012"; "013"; "028"; "029"; "030"; "031"; " "]%char.

Definition digit_of (c : ascii) : option Z := Z.of_nat <$> Ascii.is_nat c.

(** The digits of a decimal numeral, most significant first. *)
Fixpoint digits (acc : Z) (x : list ascii) : option Z :=
  match x with
  | [] => Some acc
  | c :: x' => d ← digit_of c; digits (10 * acc + d) x'
  end.

(** A numeral has a digit at least. *)
Definition numeral (x : list ascii) : option Z :=
  match x with
  | [] => None
  | _ => digits 0 x
  end.

(** [int(x)] in base ten for a plain text [x]: white space, a sign, the
    digits, white space; [None] stands for the [ValueError] that [int]
    raises on anything else. *)
Definition int (x : string) : option Z :=
  match rstrip whitespace (lstrip whitespace (list_ascii_of_string x)) with
  | "-"%char :: ds => Z.opp <$> numeral ds
  | "+"%char :: ds => numeral ds
  | ds => numeral ds
  end.

(** The texts on which [int] does the same in every version of Python:
    all their characters are of ASCII, and none is an underscore (which a
    numeral may hold between two digits from Python 3.6 on). *)
Definition plain (x : string) : bool :=
  forallb (λ c, (nat_of_ascii c <? 128)%nat && negb (Ascii.eqb c "_"))
    (list_ascii_of_string x).

(** [str(n)] for a natural number. *)
Definition str (n : N) : string :=
  DecimalString.NilEmpty.string_of_uint (N.to_uint n).

Definition is_digit (c : ascii) : Prop := is_Some (digit_of c).

End Py.

(** The floats of Python: IEEE 754 binary64, rounded to the nearest, ties
    to even. *)
Module Binary64.

Definition prec : Z := 53.
Definition emax : Z := 1024.

(** [float(n)] for an [int]: the nearest float.  Beyond the largest float
    it is an infinity here; Python raises [OverflowError] there. *)
Definition of_int (n : Z) : spec_float := binary_normalize prec emax n 0 false.

Definition mul : spec_float → spec_float → spec_float := SFmul prec emax.
Definition div : spec_float → spec_float → spec_float := SFdiv prec emax.

Definition is_finite (x : spec_float) : bool :=
  match x with
  | S754_zero _ | S754_finite _ _ _ => true
  | S754_infinity _ | S754_nan => false
  end.

(** The literal [0.01], which is [5764607523034235 / 2^59], and [1.0]. *)
Definition hundredth : spec_float := S754_finite false 5764607523034235 (-59).
Definition one : spec_float := S754_finite false 4503599627370496 (-52).

End Binary64.

(** ** Paths and files *)

Module OsPath.

Definition endswith_sep (a : string) : bool :=
  match rev (list_ascii_of_string a) with
  | "/"%char :: _ => true
  | _ => false
  end.

(** [os.path.join(a, p)] of [posixpath], for two components. *)
Definition join (a p : string) : string :=
  if String.prefix "/" p then p
  else if bool_decide (a = "") || endswith_sep a then a +:+ p
  else a +:+ "/" +:+ p.

(** What is left of a text read backwards from its first slash on. *)
Fixpoint from_sep (x : list ascii) : list ascii :=
  match x with
  | [] => []
  | c :: x' => if bool_decide (c = "/"%char) then x else from_sep x'
  end.

(** [os.path.dirname(p)] of [posixpath]: [p] up to its last slash,
    without the slashes at the end of that unless slashes are all it is
    made of. *)
Definition dirname (p : string) : string :=
  let head := rev (from_sep (rev (list_ascii_of_string p))) in
  string_of_list_ascii
    (if forallb (Ascii.eqb "/") head then head else Py.rstrip ["/"%char] head).

End OsPath.

(** What a path of the file system holds: a directory, or a regular file
    with its contents. *)
Inductive node : Set :=
  | Dir
  | File (data : string).

Global Instance node_eq_dec : EqDecision node.
Proof. solve_decision. Defined.

(** The file system, by the text of the paths.  The paths that are handed
    to the calls are taken to be in normal form (no slash at the end, no
    two slashes in a row, no [.] and [..]), as [main] builds them with
    [os.path.join]; a path without a slash is in the working directory,
    which is there, and the root, where paths start from it, is held
    under ["/"]. *)
Abbreviation filesystem := (gmap string node).

(** ** Python values *)

(** The values [json.load] builds: [None], [True] and [False], numbers,
    strings, lists and dicts with strings as keys.  A dict is the finite
    map it stands for; the order of its keys, which nothing but the order
    of the members in the text of [json.dump] depends on, is not kept. *)
#[local] Set Warnings "-register-all".
Inductive value : Type :=
  | VNone
  | VBool (b : bool)
  | VInt (n : Z)
  | VFloat (x : spec_float)
  | VStr (s : string)
  | VList (items : list value)
  | VDict (entries : gmap string value).

(** [bool(v)], which [if v:] tests. *)
Definition truthy (v : value) : bool :=
  match v with
  | VNone => false
  | VBool b => b
  | VInt n => negb (n =? 0)
  | VFloat (S754_zero _) => false
  | VFloat _ => true
  | VStr s => negb (bool_decide (s = ""))
  | VList items => negb (bool_decide (length items = 0%nat))
  | VDict entries => bool_decide (entries ≠ ∅)
  end.

(** [v == s] for a string [s]: only a string is equal to a string. *)
Definition eq_str (v : value) (s : string) : bool :=
  match v with
  | VStr t => bool_decide (t = s)
  | _ => false
  end.

(** The exceptions that can leave [make_images]. *)
Inductive exn : Set :=
  | ValueError                (* json.load on a corrupt text, int on a non-numeral *)
  | OSError (path : string)   (* makedirs, open and copyfile; IOError is one *)
  | AttributeError            (* .get on what is no dict, .strip on what is no string *)
  | TypeError                 (* an item assigned to what is no dict *)
  | OverflowError             (* the float of an int beyond the floats *)
  | ThumbnailError.           (* whatever create_thumbnail raises *)

Inductive result (A : Type) : Type :=
  | Ok (a : A)
  | Raise (e : exn).
Arguments Ok {A} a.
Arguments Raise {A} e.

(** ** The pass and its collaborators *)

Section Gallery.

(** The specification documents of the examples, the charts built from
    them, and the state of the world outside the file system (the Node
    installation the renderer shells out to). *)
Context {Spec Chart Env : Type}.

(** One item of [iter_examples_with_metadata()]: a dictionary with the
    keys ['name'] and ['spec'] and, for some examples,
    ['galleryParameters']. *)
Record example : Type := Example {
  name : string;
  spec : Spec;
  galleryParameters : option value
}.

(** The calls of a pass that can be observed from outside, oldest first. *)
Inductive event : Type :=
  | Warned (msg : string)
  | MadeDirs (path : string)
  | Printed (msg : string)
  | SaveChart (chart : Chart) (path : string)
  | CopyFile (src dst : string)
  | CreateThumbnail (image_file thumb_file : string) (zoom : spec_float)
  | JsonDump (path text : string).

Record state : Type := State {
  fs : filesystem;
  env : Env;
  hashes : value;                (* the local [hashes] *)
  can_save : bool;               (* the local [can_save] *)
  log : list event
}.

Definition set_fs (f : filesystem) (s : state) : state :=
  State f (env s) (hashes s) (can_save s) (log s).
Definition set_env (e : Env) (s : state) : state :=
  State (fs s) e (hashes s) (can_save s) (log s).
Definition set_hashes (h : value) (s : state) : state :=
  State (fs s) (env s) h (can_save s) (log s).
Definition set_can_save (b : bool) (s : state) : state :=
  State (fs s) (env s) (hashes s) b (log s).
Definition emit (e : event) (s : state) : state :=
  State (fs s) (env s) (hashes s) (can_save s) (log s ++ [e]).

(** Computations that read and change the state and either return or
    raise; what was done before an exception stays done. *)
Definition M (A : Type) : Type := state → result A * state.

Definition ret {A} (a : A) : M A := λ s, (Ok a, s).
Definition bind {A B} (m : M A) (k : A → M B) : M B := λ s,
  match m s with
  | (Ok a, s') => k a s'
  | (Raise e, s') => (Raise e, s')
  end.
Definition raise {A} (e : exn) : M A := λ s, (Raise e, s).
Definition gets {A} (f : state → A) : M A := λ s, (Ok (f s), s).
Definition modify (f : state → state) : M unit := λ s, (Ok tt, f s).
Definition when (b : bool) (m : M unit) : M unit := if b then m else ret tt.

Notation "x <- m ;; k" := (bind m (λ x, k))
  (at level 100, m at next level, right associativity).
Notation "m ;;; k" := (bind m (λ _, k))
  (at level 100, right associativity).

(** [for x in l: body x]; a [continue] is the body returning early. *)
Fixpoint for_each {A} (l : list A) (body : A → M unit) : M unit :=
  match l with
  | [] => ret tt
  | x :: l' => body x ;;; for_each l' body
  end.

(** *** The file system calls *)

Definition path_exists (p : string) : M bool :=
  gets (λ s, bool_decide (is_Some (fs s !! p))).

(** The directory that [p] lies in is there. *)
Definition parent_is_dir (p : string) (f : filesystem) : bool :=
  bool_decide (OsPath.dirname p = "" ∨ f !! OsPath.dirname p = Some Dir).

(** [os.mkdir(p)] *)
Definition mkdir (p : string) : M unit := λ s,
  if bool_decide (is_Some (fs s !! p)) then (Raise (OSError p), s)
  else if parent_is_dir p (fs s) then (Ok tt, set_fs (<[p := Dir]> (fs s)) s)
  else (Raise (OSError p), s).

(** [os.makedirs(p)] makes the directory above [p] first, in the same
    way, if it is missing.  The path gets shorter at every turn, so its
    length bounds the recursion. *)
Fixpoint makedirs_from (fuel : nat) (p : string) : M unit :=
  let head := OsPath.dirname p in
  (if bool_decide (head = "") then ret tt
   else
     present <- path_exists head ;;
     when (negb present)
       match fuel with
       | S fuel' => makedirs_from fuel' head
       | O => ret tt
       end) ;;;
  mkdir p.

Definition makedirs (p : string) : M unit :=
  modify (emit (MadeDirs p)) ;;;
  makedirs_from (String.length p) p.

(** [open(p).read()] *)
Definition read_file (p : string) : M string := λ s,
  match fs s !! p with
  | Some (File data) => (Ok data, s)
  | _ => (Raise (OSError p), s)
  end.

(** [open(p, 'w')]: a file that is there is emptied, one that is not is
    made in its directory. *)
Definition open_w (p : string) : M unit := λ s,
  match fs s !! p with
  | Some Dir => (Raise (OSError p), s)
  | Some (File _) => (Ok tt, set_fs (<[p := File ""]> (fs s)) s)
  | None =>
      if parent_is_dir p (fs s) then (Ok tt, set_fs (<[p := File ""]> (fs s)) s)
      else (Raise (OSError p), s)
  end.

(** [f.write(data)] into the file just opened at [p], and its close. *)
Definition write (p data : string) : M unit :=
  modify (λ s, set_fs (<[p := File data]> (fs s)) s).

(** [shutil.copyfile(src, dst)]: a file is not copied onto itself; the
    source is opened before the destination. *)
Definition copyfile (src dst : string) : M unit :=
  modify (emit (CopyFile src dst)) ;;;
  same_file <- gets (λ s, bool_decide (src = dst ∧ is_Some (fs s !! src))) ;;
  if same_file then raise (OSError dst)
  else
    data <- read_file src ;;
    open_w dst ;;;
    write dst data.

Definition warn (msg : string) : M unit := modify (emit (Warned msg)).
Definition print (msg : string) : M unit := modify (emit (Printed msg)).

(** *** Dicts *)

(** [d.get(key, dflt)] *)
Definition dict_get (d : value) (key : string) (dflt : value) : M value :=
  match d with
  | VDict entries => ret (default dflt (entries !! key))
  | _ => raise AttributeError
  end.

(** [hashes[key] = v] *)
Definition set_entry (key : string) (v : value) : M unit := λ s,
  match hashes s with
  | VDict entries => (Ok tt, set_hashes (VDict (<[key := v]> entries)) s)
  | _ => (Raise TypeError, s)
  end.

(** *** The collaborators *)

(** [dict_hash] of [.utils], the content hash of a specification. *)
Variable dict_hash : Spec → string.

(** [Chart._png_output_available()] and [Chart.from_dict]. *)
Variable png_output_available : Env → bool.
Variable from_dict : Spec → Chart.

(** [chart.savechart(path)]: the renderer does what it does to the files
    and to the world; [false] is its [CalledProcessError]. *)
Variable savechart : Chart → string → filesystem → Env → filesystem * Env * bool.

(** [create_thumbnail(image_file, thumb_file, zoom)] of [.utils]; [None]
    when it raises. *)
Variable create_thumbnail :
  string → string → spec_float → filesystem → option filesystem.

(** [json.load] on the text of the ledger file ([None] when it raises
    [ValueError]) and the text [json.dump] writes. *)
Variable json_load : string → option value.
Variable json_dump : value → string.

(** [int] on the texts that are not plain: what it makes of an
    underscore and of the white space and the digits beyond ASCII is a
    matter of the version of Python and of its Unicode tables. *)
Variable int_beyond : string → option Z.

(** The example corpus, in iteration order. *)
Variable iter_examples_with_metadata : list example.

Definition node_warning : string :=
  "Node is not correctly configured: cannot save images.".

(** *** [make_images], block by block *)

(** Lines 156-162: the ledger is read when its file exists. *)
Definition load_hashes (hash_file : string) : M unit :=
  present <- path_exists hash_file ;;
  if present then
    text <- read_file hash_file ;;
    match json_load text with
    | Some h => modify (set_hashes h)
    | None => raise ValueError
    end
  else modify (set_hashes (VDict ∅)).

(** Lines 182-183 and 186-187: the placeholder is copied when nothing is
    at the place of the image. *)
Definition placeholder_fallback (image_file default_image : string) : M unit :=
  present <- path_exists image_file ;;
  when (negb present) (copyfile default_image image_file).

(** Line 178, [chart.savechart(image_file)], with its effects. *)
Definition call_savechart (chart : Chart) (image_file : string) : M bool := λ s,
  let '(f, e, ok) := savechart chart image_file (fs s) (env s) in
  (Ok ok, set_fs f (set_env e (emit (SaveChart chart image_file) s))).

(** Lines 174-187: render, or fall back to the placeholder. *)
Definition save_image (spec_hash filename image_file default_image : string)
    (sp : Spec) : M unit :=
  can <- gets can_save ;;
  if can then
    let chart := from_dict sp in
    print ("-> saving " +:+ image_file) ;;;
    ok <- call_savechart chart image_file ;;
    if ok then
      set_entry filename (VStr spec_hash)
    else
      warn node_warning ;;;
      modify (set_can_save false) ;;;
      placeholder_fallback image_file default_image
  else
    placeholder_fallback image_file default_image.

(** [int(x)] *)
Definition int (x : string) : option Z :=
  if Py.plain x then Py.int x else int_beyond x.

(** Line 190: [convert_pct = lambda x: 0.01 * int(x.strip('%'))]; the
    product is one of floats. *)
Definition convert_pct (x : value) : M spec_float :=
  match x with
  | VStr text =>
      match int (Py.strip "%" text) with
      | Some n =>
          if Binary64.is_finite (Binary64.of_int n)
          then ret (Binary64.mul Binary64.hundredth (Binary64.of_int n))
          else raise OverflowError
      | None => raise ValueError
      end
  | _ => raise AttributeError
  end.

(** Lines 191-194: the zoom of an example as its parameters have it. *)
Definition zoom_of (ex : example) : M value :=
  let params := default (VDict ∅) (galleryParameters ex) in
  zoom <- dict_get params "backgroundSize" (VStr "100%") ;;
  ret (if eq_str zoom "contains" then VStr "100%" else zoom).

Definition thumb_file_of (image_dir : string) (ex : example) : string :=
  OsPath.join image_dir (name ex +:+ "-thumb.png").

(** Line 202, [create_thumbnail(image_file, thumb_file, zoom=zoom)]. *)
Definition call_create_thumbnail (image_file thumb_file : string)
    (zoom : spec_float) : M unit :=
  modify (emit (CreateThumbnail image_file thumb_file zoom)) ;;;
  λ s, match create_thumbnail image_file thumb_file zoom (fs s) with
       | Some f => (Ok tt, set_fs f s)
       | None => (Raise ThumbnailError, s)
       end.

(** Lines 189-202: the thumbnail. *)
Definition make_thumbnail (image_dir image_file : string) (ex : example) : M unit :=
  text <- zoom_of ex ;;
  zoom <- convert_pct text ;;
  call_create_thumbnail image_file (thumb_file_of image_dir ex) zoom.

Definition filename_of (ex : example) : string := name ex +:+ ".png".
Definition image_file_of (image_dir : string) (ex : example) : string :=
  OsPath.join image_dir (filename_of ex).

(** Line 171: the ledger is a dict and what it has for the example, read
    with [''] as default, is the hash of the specification. *)
Definition skipped (ex : example) (s : state) : Prop :=
  ∃ h, hashes s = VDict h ∧
       eq_str (default (VStr "") (h !! filename_of ex)) (dict_hash (spec ex)) = true.

Global Instance skipped_dec ex s : Decision (skipped ex s).
Proof.
  unfold Decision, skipped. destruct (hashes s) as [| | | | | |h];
    try by (right; intros (? & [=] & _)).
  destruct (eq_str (default (VStr "") (h !! filename_of ex)) (dict_hash (spec ex)))
    eqn:E; [left; eauto|].
  right. intros (h' & [= <-] & H). congruence.
Defined.

(** Lines 164-202: the body of the loop. *)
Definition loop_body (image_dir default_image : string) (make_thumbnails : bool)
    (ex : example) : M unit :=
  let filename := filename_of ex in
  let image_file := image_file_of image_dir ex in
  let spec_hash := dict_hash (spec ex) in
  h <- gets hashes ;;
  known <- dict_get h filename (VStr "") ;;
  if eq_str known spec_hash then ret tt (* continue *)
  else
    save_image spec_hash filename image_file default_image (spec ex) ;;;
    when make_thumbnails (make_thumbnail image_dir image_file ex).

Definition hash_file_of (image_dir : string) : string :=
  OsPath.join image_dir "_image_hashes.json".

(** Lines 204-207: the ledger is written back when it is not empty; the
    file is opened before [json.dump] is called. *)
Definition save_hashes (hash_file : string) : M unit :=
  h <- gets hashes ;;
  when (truthy h)
    (open_w hash_file ;;;
     modify (emit (JsonDump hash_file (json_dump h))) ;;;
     write hash_file (json_dump h)).

(** Lines 148-153: the renderer is probed and the directory made. *)
Definition prepare (image_dir : string) : M unit :=
  can <- gets (λ s, png_output_available (env s)) ;;
  modify (set_can_save can) ;;;
  when (negb can) (warn node_warning) ;;;
  present <- path_exists image_dir ;;
  when (negb present) (makedirs image_dir).

Definition make_images (image_dir default_image : string) (make_thumbnails : bool)
    : M unit :=
  prepare image_dir ;;;
  let hash_file := hash_file_of image_dir in
  load_hashes hash_file ;;;
  for_each iter_examples_with_metadata
    (loop_body image_dir default_image make_thumbnails) ;;;
  save_hashes hash_file.

(** What is left of the body of the loop for an example that is not
    skipped once the renderer counts as unavailable: the placeholder,
    then the thumbnail. *)
Definition placeholder_path (image_dir default_image : string)
    (make_thumbnails : bool) (ex : example) : M unit :=
  placeholder_fallback (image_file_of image_dir ex) default_image ;;;
  when make_thumbnails (make_thumbnail image_dir (image_file_of image_dir ex) ex).

(** The body of the loop without the hash check: the example is rendered
    anew, or gets the placeholder, and its thumbnail is made. *)
Definition regenerate (image_dir default_image : string) (make_thumbnails : bool)
    (ex : example) : M unit :=
  save_image (dict_hash (spec ex)) (filename_of ex) (image_file_of image_dir ex)
    default_image (spec ex) ;;;
  when make_thumbnails (make_thumbnail image_dir (image_file_of image_dir ex) ex).

(** The state in which a pass starts: the locals are not bound yet. *)
Definition initial (f : filesystem) (e : Env) : state := State f e VNone false [].

(** The state in which a failed render leaves the pass: the call is
    logged, its effects are kept, and the renderer counts as unavailable. *)
Definition after_failure (image_dir : string) (ex : example) (f : filesystem)
    (e : Env) (s : state) : state :=
  let chart := from_dict (spec ex) in
  let image_file := image_file_of image_dir ex in
  set_can_save false
    (emit (Warned node_warning)
       (set_fs f
          (set_env e
             (emit (SaveChart chart image_file)
                (emit (Printed ("-> saving " +:+ image_file)) s))))).

(** What the parameters of an example have for ['backgroundSize'], when
    they are a dict or missing. *)
Definition background_size (ex : example) (size : option value) : Prop :=
  ∃ params, default (VDict ∅) (galleryParameters ex) = VDict params ∧
            params !! "backgroundSize" = size.

(** The percentage of the zoom of an example: 100 without a
    ['backgroundSize'] and for ['contains'], [N] for ["N%"]. *)
Definition percentage (ex : example) (pct : Z) : Prop :=
  (background_size ex None ∧ pct = 100) ∨
  (background_size ex (Some (VStr "contains")) ∧ pct = 100) ∨
  (∃ n : N, background_size ex (Some (VStr (Py.str n +:+ "%"))) ∧ pct = Z.of_N n).

(** *** Relations between the state before and after a computation *)

(** Whatever the outcome of [m], the state it leaves is related by [R]
    to the state it started in. *)
Definition steps {A} (R : relation state) (m : M A) : Prop :=
  ∀ s, R s (m s).2.

(** The component [f] of the state is the same. *)
Definition same {X} (f : state → X) : relation state :=
  λ s s', f s' = f s.

(** The log is longer by events that are all in [P]. *)
Definition logs (P : event → Prop) : relation state :=
  λ s s', ∃ evs, log s' = log s ++ evs ∧ Forall P evs.

(** A ledger that is a dict stays one, and every file name of it is
    still in it. *)
Definition ledger_grows : relation state :=
  λ s s', ∀ h, hashes s = VDict h →
          ∃ h', hashes s' = VDict h' ∧ dom h ⊆ dom h'.

Definition is_savechart (ev : event) : Prop :=
  match ev with SaveChart _ _ => True | _ => False end.
Definition is_jsondump (ev : event) : Prop :=
  match ev with JsonDump _ _ => True | _ => False end.

(** Once the renderer counts as unavailable it stays so, is not called
    and the world outside the file system is left alone. *)
Definition unavailable : relation state :=
  λ s s', can_save s = false →
          can_save s' = false ∧ env s' = env s ∧
          logs (λ ev, ¬ is_savechart ev) s s'.

End Gallery.

Global Arguments hash_file_of : simpl never.
Global Arguments image_file_of : simpl never.
Global Arguments thumb_file_of : simpl never.
(** ** The content hash of a specification *)

Module Utils.

(** A specification document: the value [json.load] gives for the file
    of an example.  An object is a [dict]; its members are kept in
    insertion order, and a [dict] has every key once. *)
#[local] Set Warnings "-register-all".
Inductive json : Type :=
  | JNull
  | JBool (b : bool)
  | JNumber (literal : string)
  | JString (s : string)
  | JArray (items : list json)
  | JObject (members : list (string * json)).

Definition dquote : ascii := "034"%char.
Definition backslash : ascii := "092"%char.

Fixpoint escape (s : string) : string :=
  match s with
  | EmptyString => EmptyString
  | String c s' =>
      if bool_decide (c = dquote ∨ c = backslash)
      then String backslash (String c (escape s'))
      else String c (escape s')
  end.

Definition quote (s : string) : string :=
  String dquote (escape s +:+ String dquote EmptyString).

(** [sep.join(l)] *)
Fixpoint sep_join (sep : string) (l : list string) : string :=
  match l with
  | [] => EmptyString
  | [x] => x
  | x :: l' => x +:+ sep +:+ sep_join sep l'
  end.

(** Members are compared by key alone. *)
Definition key_le (a b : string * string) : Prop := String.le a.1 b.1.

Global Instance key_le_dec : RelDecision key_le.
Proof. intros a b. unfold key_le. apply _. Defined.

Definition member_text (kv : string * string) : string :=
  quote kv.1 +:+ ": " +:+ kv.2.

(** The text of a document in which the members of every object come in
    the order of their keys. *)
Fixpoint serialize (d : json) : string :=
  match d with
  | JNull => "null"
  | JBool true => "true"
  | JBool false => "false"
  | JNumber literal => literal
  | JString s => quote s
  | JArray items => "[" +:+ sep_join ", " (map serialize items) +:+ "]"
  | JObject members =>
      "{" +:+ sep_join ", "
                (map member_text
                   (merge_sort key_le
                      (map (λ kv, (kv.1, serialize kv.2)) members)))
          +:+ "}"
  end.

(** Modelled from the spec: [dict_hash] of [.utils] is not among the
    sources.  The specification asks for a deterministic content hash of
    a specification document that does not depend on the order of the
    keys; it is taken to be a digest of the text of the document with the
    members of every object in key order.  The digest itself is left
    open. *)
Definition dict_hash (digest : string → string) (d : json) : string :=
  digest (serialize d).

(** Every object of the document has each of its keys once. *)
Fixpoint unique_keys (d : json) : Prop :=
  match d with
  | JArray items => foldr (λ x P, unique_keys x ∧ P) True items
  | JObject members =>
      NoDup (map fst members) ∧
      foldr (λ kv P, unique_keys kv.2 ∧ P) True members
  | _ => True
  end.

(** Two documents hold the same key/value pairs, the members of their
    objects possibly in another order. *)
Inductive same_pairs : json → json → Prop :=
  | same_null : same_pairs JNull JNull
  | same_bool b : same_pairs (JBool b) (JBool b)
  | same_number n : same_pairs (JNumber n) (JNumber n)
  | same_string s : same_pairs (JString s) (JString s)
  | same_array l1 l2 :
      Forall2 same_pairs l1 l2 → same_pairs (JArray l1) (JArray l2)
  | same_object m1 m m2 :
      m1 ≡ₚ m →
      Forall2 (λ a b, a.1 = b.1 ∧ same_pairs a.2 b.2) m m2 →
      same_pairs (JObject m1) (JObject m2).

End Utils.


(** ** Collaborators to run the pass with *)

(** [json.load] and [json.dump] for the ledgers of the samples: one
    object whose keys and values are strings, read character by
    character, and the empty array as a document that is no ledger.  Any
    other text is refused here, as a corrupt ledger is. *)
Module Json.

Inductive pstate : Type :=
  | Start                              (* before the opening brace *)
  | Opened                             (* after it: a key or the closing brace *)
  | InKey (k : string) (esc : bool)    (* in a key, read so far, reversed *)
  | Colon (k : string)                 (* after a key *)
  | Value (k : string)                 (* after the colon *)
  | InValue (k v : string) (esc : bool)
  | Next                               (* after a member *)
  | Member                             (* after a comma *)
  | Closed.

Definition unescape (c : ascii) : option ascii :=
  if bool_decide (c = Utils.dquote ∨ c = Utils.backslash ∨ c = "/"%char)
  then Some c
  else match c with
       | "n"%char => Some "010"%char
       | "t"%char => Some "009"%char
       | "r"%char => Some "013"%char
       | _ => None
       end.

Definition is_space (c : ascii) : bool :=
  bool_decide (c ∈ [" "; "009"; "010"; "013"]%char).

Definition step (st : pstate) (h : gmap string value) (c : ascii)
    : option (pstate * gmap string value) :=
  let quote := bool_decide (c = Utils.dquote) in
  let slash := bool_decide (c = Utils.backslash) in
  match st with
  | Start =>
      if is_space c then Some (Start, h)
      else if bool_decide (c = "{"%char) then Some (Opened, h) else None
  | Opened =>
      if is_space c then Some (Opened, h)
      else if quote then Some (InKey EmptyString false, h)
      else if bool_decide (c = "}"%char) then Some (Closed, h) else None
  | InKey k true => c' ← unescape c; Some (InKey (String c' k) false, h)
  | InKey k false =>
      if quote then Some (Colon (String.rev k), h)
      else if slash then Some (InKey k true, h)
      else Some (InKey (String c k) false, h)
  | Colon k =>
      if is_space c then Some (Colon k, h)
      else if bool_decide (c = ":"%char) then Some (Value k, h) else None
  | Value k =>
      if is_space c then Some (Value k, h)
      else if quote then Some (InValue k EmptyString false, h) else None
  | InValue k v true => c' ← unescape c; Some (InValue k (String c' v) false, h)
  | InValue k v false =>
      if quote then Some (Next, <[k := VStr (String.rev v)]> h)
      else if slash then Some (InValue k v true, h)
      else Some (InValue k (String c v) false, h)
  | Next =>
      if is_space c then Some (Next, h)
      else if bool_decide (c = ","%char) then Some (Member, h)
      else if bool_decide (c = "}"%char) then Some (Closed, h) else None
  | Member =>
      if is_space c then Some (Member, h)
      else if quote then Some (InKey EmptyString false, h) else None
  | Closed => if is_space c then Some (Closed, h) else None
  end.

Fixpoint run (st : pstate) (h : gmap string value) (text : string)
    : option (gmap string value) :=
  match text with
  | EmptyString => match st with Closed => Some h | _ => None end
  | String c text' => '(st', h') ← step st h c; run st' h' text'
  end.

Definition load (text : string) : option value :=
  if bool_decide (text = "[]") then Some (VList [])
  else VDict <$> run Start ∅ text.

(** The text of an entry; the samples have no entry that is not a
    string. *)
Definition entry_text (v : value) : string :=
  match v with
  | VStr s => Utils.quote s
  | _ => "null"
  end.

Definition dump (v : value) : string :=
  match v with
  | VDict h =>
      "{" +:+ Utils.sep_join ", "
                (map (λ kv, Utils.member_text (kv.1, entry_text kv.2)) (map_to_list h))
          +:+ "}"
  | VList [] => "[]"
  | _ => "null"
  end.

End Json.

(** A renderer whose coming outcomes are listed in the state of the world
    (no outcome left: Node is not installed), charts that are their
    specification, and thumbnails that wrap the image they are made of. *)
Module Sample.

Definition dict_hash : Utils.json → string := Utils.dict_hash (λ text, text).

Definition png_output_available (outcomes : list bool) : bool :=
  bool_decide (outcomes ≠ []).

Definition from_dict (sp : Utils.json) : Utils.json := sp.

Definition savechart (chart : Utils.json) (path : string) (f : filesystem)
    (outcomes : list bool) : filesystem * list bool * bool :=
  match outcomes with
  | true :: rest => (<[path := File ("png " +:+ Utils.serialize chart)]> f, rest, true)
  | _ => (f, tail outcomes, false)
  end.

Definition create_thumbnail (image_file thumb_file : string) (zoom : spec_float)
    (f : filesystem) : option filesystem :=
  match f !! image_file with
  | Some (File data) => Some (<[thumb_file := File ("thumb " +:+ data)]> f)
  | _ => None
  end.

(** A Python that takes nothing but the plain numerals; none of the
    samples has another text. *)
Definition int_beyond (x : string) : option Z := None.

Definition make_images (examples : list (@example Utils.json)) :=
  make_images dict_hash png_output_available from_dict savechart
    create_thumbnail Json.load Json.dump int_beyond examples.

Definition bar : @example Utils.json :=
  Example "bar" (Utils.JObject [("mark", Utils.JString "bar")]) None.
Definition area : @example Utils.json :=
  Example "area" (Utils.JObject [("mark", Utils.JString "area")])
    (Some (VDict {["backgroundSize" := VStr "50%"]})).
Definition line : @example Utils.json :=
  Example "line" (Utils.JObject [("mark", Utils.JString "line")])
    (Some (VDict {["backgroundSize" := VStr "contains"]})).

Definition gray : node := File "gray square".

(** File systems and states to run the pass from: the placeholder alone,
    with the image directory, and with a ledger file in it. *)
Definition static_only : filesystem :=
  {[ "static" := Dir; "static/gray.png" := gray ]}.

Definition with_images : filesystem := <["img" := Dir]> static_only.

Definition with_ledger (h : gmap string value) : filesystem :=
  <["img/_image_hashes.json" := File (Json.dump (VDict h))]> with_images.

Definition corrupt_ledger : filesystem :=
  <["img/_image_hashes.json" := File "{"]> with_images.

(** A ledger file that holds JSON, but no object. *)
Definition list_ledger : filesystem :=
  <["img/_image_hashes.json" := File "[]"]> with_images.

Definition start (f : filesystem) (outcomes : list bool)
    : @state Utils.json (list bool) :=
  initial f outcomes.

(** In the middle of a pass: the ledger [h] in memory, the renderer
    counting as available or not. *)
Definition midway (h : gmap string value) (can : bool) (outcomes : list bool)
    : @state Utils.json (list bool) :=
  State with_images outcomes (VDict h) can [].

(** The same with an image of [bar] of an earlier pass in place. *)
Definition with_old_bar : filesystem :=
  <["img/bar.png" := File "png of old"]> with_images.

Definition midway_old_bar (can : bool) (outcomes : list bool)
    : @state Utils.json (list bool) :=
  State with_old_bar outcomes (VDict ∅) can [].

Definition loop_body :=
  loop_body dict_hash from_dict savechart create_thumbnail int_beyond
    "img" "static/gray.png" true.

(** A ledger that knows the current specification of [area], the state
    a failed render of [bar] leaves with it, and a whole pass over
    [bar] and [area] from that ledger with a renderer that fails. *)
Definition unchanged_area : gmap string value :=
  {[ "area.png" := VStr (dict_hash (spec area)) ]}.

Definition after_failed_bar : @state Utils.json (list bool) :=
  (loop_body bar (midway unchanged_area true [false])).2.

Definition stale_pass : result unit * @state Utils.json (list bool) :=
  make_images [bar; area] "img" "static/gray.png" true
    (start (with_ledger unchanged_area) [false; true]).

(** A pass over [bar] from a ledger file that is not JSON. *)
Definition corrupt_pass : result unit * @state Utils.json (list bool) :=
  make_images [bar] "img" "static/gray.png" true (start corrupt_ledger [true]).

(** A pass over [bar] from a ledger that knows an image of old. *)
Definition old_ledger : gmap string value := {[ "old.png" := VStr "abc" ]}.

Definition growing_pass : result unit * @state Utils.json (list bool) :=
  make_images [bar] "img" "static/gray.png" true
    (start (with_ledger old_ledger) [true]).

(** The same chart written with its keys in two orders. *)
Definition scatter : Utils.json :=
  Utils.JObject
    [("mark", Utils.JString "point");
     ("encoding", Utils.JObject [("x", Utils.JString "a"); ("y", Utils.JString "b")])].
Definition scatter' : Utils.json :=
  Utils.JObject
    [("encoding", Utils.JObject [("y", Utils.JString "b"); ("x", Utils.JString "a")]);
     ("mark", Utils.JString "point")].

End Sample.

(** ** More about the states of a pass *)

Section GalleryRelations.

Context {Spec Chart Env : Type}.

Definition is_createthumbnail (ev : @event Chart) : Prop :=
  match ev with CreateThumbnail _ _ _ => True | _ => False end.

(** The calls that make or change an image: the renderer, the copy of the
    placeholder and the thumbnail. *)
Definition is_image_call (ev : @event Chart) : Prop :=
  match ev with
  | SaveChart _ _ | CopyFile _ _ | CreateThumbnail _ _ _ => True
  | _ => False
  end.

(** With the renderer counting as unavailable, the ledger in memory stays
    as it is. *)
Definition frozen : relation (@state Chart Env) :=
  λ s s', can_save s = false → can_save s' = false ∧ hashes s' = hashes s.

(** The ledger is as it was, or it is a dict as before, and every entry
    of it was there before or is the hash of an example of [l] under its
    file name. *)
Definition from_examples (dict_hash : Spec → string) (l : list (@example Spec))
    : relation (@state Chart Env) :=
  λ s s', hashes s' = hashes s ∨
    ∃ h h', hashes s = VDict h ∧ hashes s' = VDict h' ∧
      ∀ k v, h' !! k = Some v →
        h !! k = Some v ∨
        ∃ ex, ex ∈ l ∧ k = filename_of ex ∧ v = VStr (dict_hash (spec ex)).

(** A ledger that is a dict stays one, with the same entry for [k]. *)
Definition entry_kept (k : string) : relation (@state Chart Env) :=
  λ s s', ∀ h, hashes s = VDict h → ∃ h', hashes s' = VDict h' ∧ h' !! k = h !! k.


(** The pass can go on without a renderer: the renderer counts as
    unavailable, the ledger is a dict, the image directory is one, the
    placeholder is a file, and the ledger file is no directory. *)
Definition placeholder_ready (image_dir default_image hash_file : string)
    (s : @state Chart Env) : Prop :=
  can_save s = false ∧
  (∃ h, hashes s = VDict h) ∧
  fs s !! image_dir = Some Dir ∧
  (∃ data, fs s !! default_image = Some (File data)) ∧
  fs s !! hash_file ≠ Some Dir.


(** The state in which a successful render leaves the pass: the call is
    logged, its effects are kept, and the ledger, which had the entries
    [h], holds the new hash. *)
Definition after_success (dict_hash : Spec → string) (from_dict : Spec → Chart)
    (image_dir : string) (ex : @example Spec) (f : filesystem) (e : Env)
    (h : gmap string value) (s : @state Chart Env) : @state Chart Env :=
  let chart := from_dict (spec ex) in
  let image_file := image_file_of image_dir ex in
  set_hashes (VDict (<[filename_of ex := VStr (dict_hash (spec ex))]> h))
    (set_fs f
       (set_env e
          (emit (SaveChart chart image_file)
             (emit (Printed ("-> saving " +:+ image_file)) s)))).

End GalleryRelations.

(** A character that no plain numeral can hold. *)
Definition not_in_numeral (c : ascii) : Prop :=
  Py.digit_of c = None ∧ c ∉ ("+" :: "-" :: Py.whitespace)%char.

(** ** [populate_examples]: which examples, and in which order *)

Module Slice.

(** [l[:n]]: the first [n] items, or all but the last [-n] for a negative
    [n]. *)
Definition upto {A} (n : Z) (l : list A) : list A :=
  if decide (0 ≤ n) then take (Z.to_nat n) l
  else take (length l - Z.to_nat (- n)) l.

End Slice.

Section Populate.

Context {Spec : Type}.

(** An item of [iter_examples_with_metadata()] with its ['category']. *)
Record gallery_example : Type := GalleryExample {
  example_of : @example Spec;
  category : string
}.

Definition name_of (ex : gallery_example) : string := name (example_of ex).

(** The order of [sorted(..., key=itemgetter('name'))]. *)
Definition by_name (a b : gallery_example) : Prop :=
  (name_of a ≤ name_of b)%string.

Global Instance by_name_dec : RelDecision by_name.
Proof. intros a b. unfold by_name. apply _. Defined.

(** [sorted] is stable: an item goes in front of the items already sorted
    that do not come before it, and the items are put in from the last to
    the first. *)
Fixpoint insert_by_name (x : gallery_example) (l : list gallery_example)
    : list gallery_example :=
  match l with
  | [] => [x]
  | y :: l' => if decide (by_name x y) then x :: l else y :: insert_by_name x l'
  end.

Definition sorted_by_name (l : list gallery_example) : list gallery_example :=
  foldr insert_by_name [] l.

(** [random.Random(seed).shuffle(l)], and the corpus. *)
Variable shuffled : Z → list gallery_example → list gallery_example.
Variable iter_examples_with_metadata : list gallery_example.

(** Lines 115-121 of [populate_examples]: the list it goes on with and
    returns.  (The loop that follows adds keys to the dictionaries of the
    list; it neither adds, drops nor moves an item.) *)
Definition selected_examples (num_examples : option Z) (category_wanted : option string)
    (shuffle : bool) (shuffle_seed : Z) : list gallery_example :=
  let examples := sorted_by_name iter_examples_with_metadata in
  let examples :=
    match category_wanted with
    | Some c => filter (λ ex, category ex = c) examples
    | None => examples
    end in
  let examples := if shuffle then shuffled shuffle_seed examples else examples in
  match num_examples with
  | Some n => Slice.upto n examples
  | None => examples
  end.

End Populate.

(** ** More to run the pass and the choice of examples with *)

(** A renderer that always works, in a world with nothing to tell. *)
Module Reliable.

Definition png_output_available (_ : unit) : bool := true.

Definition savechart (chart : Utils.json) (path : string) (f : filesystem)
    (_ : unit) : filesystem * unit * bool :=
  (<[path := File ("png " +:+ Utils.serialize chart)]> f, tt, true).

(** A thumbnailer that always works. *)
Definition create_thumbnail (image_file thumb_file : string) (zoom : spec_float)
    (f : filesystem) : option filesystem :=
  Some (<[thumb_file := File ("thumb of " +:+ image_file)]> f).


Definition make_images (examples : list (@example Utils.json)) :=
  make_images Sample.dict_hash png_output_available Sample.from_dict savechart
    Sample.create_thumbnail Json.load Json.dump Sample.int_beyond examples
    "img" "static/gray.png" true.

End Reliable.

Module Corpus.

(** An example whose ['backgroundSize'] is a word, and one whose
    percentage is beyond the floats: a one with four hundred zeros. *)
Definition cover : @example Utils.json :=
  Example "cover" (Utils.JObject [("mark", Utils.JString "tick")])
    (Some (VDict {["backgroundSize" := VStr "cover"]})).

Definition huge : @example Utils.json :=
  Example "huge" (Utils.JObject [("mark", Utils.JString "rect")])
    (Some (VDict {["backgroundSize" := VStr (Py.str (10 ^ 400) +:+ "%")]})).

(** A ledger that knows [bar] and [area] as they are. *)
Definition current : gmap string value :=
  {[ "bar.png" := VStr (Sample.dict_hash (spec Sample.bar));
     "area.png" := VStr (Sample.dict_hash (spec Sample.area)) ]}.

Definition current_pass : result unit * @state Utils.json (list bool) :=
  Sample.make_images [Sample.bar; Sample.area] "img" "static/gray.png" true
    (Sample.start (Sample.with_ledger current) [true]).

(** A first pass over [bar] and [area] with two renders that succeed,
    and the state a second pass starts in. *)
Definition first_pass : result unit * @state Utils.json (list bool) :=
  Sample.make_images [Sample.bar; Sample.area] "img" "static/gray.png" true
    (Sample.start Sample.static_only [true; true]).

Definition second_start : @state Utils.json (list bool) :=
  initial (fs first_pass.2) [true].

(** A pass that renders [bar] and then fails on the zoom of [cover]. *)
Definition aborted_pass : result unit * @state Utils.json (list bool) :=
  Sample.make_images [Sample.bar; cover] "img" "static/gray.png" true
    (Sample.start Sample.static_only [true; true]).

(** The examples with their categories, and the list backwards for a
    shuffle. *)
Definition listed : list (@gallery_example Utils.json) :=
  [GalleryExample Sample.line "lines"; GalleryExample Sample.bar "bars";
   GalleryExample Sample.area "areas"; GalleryExample cover "bars"].

Definition backwards (seed : Z) (l : list (@gallery_example Utils.json))
    : list (@gallery_example Utils.json) :=
  reverse l.

End Corpus.

(** * Reasoning about computations *)

Section MonadFacts.

Context {Chart Env : Type}.
Local Abbreviation state := (@state Chart Env).
Local Abbreviation M := (@M Chart Env).
Local Abbreviation event := (@event Chart).

Global Instance same_preorder {X} (f : state → X) : PreOrder (same f).
Proof. split; unfold same; [done|]. intros s1 s2 s3 H1 H2. congruence. Qed.

Global Instance logs_preorder (P : event → Prop) : PreOrder (@logs Chart Env P).
Proof.
  split.
  - intros s. exists []. by rewrite app_nil_r.
  - intros s1 s2 s3 (evs & H1 & HP) (evs' & H2 & HP').
    exists (evs ++ evs'). split; [by rewrite H2, H1, app_assoc|].
    by apply Forall_app.
Qed.

Global Instance ledger_grows_preorder : PreOrder (@ledger_grows Chart Env).
Proof.
  split.
  - intros s h Hh. by exists h.
  - intros s1 s2 s3 H1 H2 h Hh.
    destruct (H1 h Hh) as (h2 & Hh2 & Hsub).
    destruct (H2 h2 Hh2) as (h3 & Hh3 & Hsub').
    exists h3. split; [done|]. set_solver.
Qed.

Global Instance unavailable_preorder : PreOrder (@unavailable Chart Env).
Proof.
  split.
  - intros s Hc. split; [done|]. split; [done|]. reflexivity.
  - intros s1 s2 s3 H1 H2 Hc. destruct (H1 Hc) as (Hc2 & He2 & Hl2).
    destruct (H2 Hc2) as (Hc3 & He3 & Hl3).
    split; [done|]. split; [congruence|]. by etrans.
Qed.

Section Steps.
Context (R : relation state) `{!PreOrder R}.

Lemma steps_ret {A} (a : A) : steps R (ret a).
Proof. intros s. reflexivity. Qed.

Lemma steps_raise {A} e : steps R (raise (A:=A) e).
Proof. intros s. reflexivity. Qed.

Lemma steps_gets {A} (g : state → A) : steps R (gets g).
Proof. intros s. reflexivity. Qed.

Lemma steps_bind {A B} (m : M A) (k : A → M B) :
  steps R m → (∀ a, steps R (k a)) → steps R (bind m k).
Proof.
  intros Hm Hk s. unfold bind. specialize (Hm s).
  destruct (m s) as [[a|e] s1]; cbn in *; [|done].
  etrans; [done|]. apply Hk.
Qed.

Lemma steps_when b (m : M unit) : steps R m → steps R (when b m).
Proof. destruct b; [done|]. intros _. apply steps_ret. Qed.

Lemma steps_for_each {A} (l : list A) (body : A → M unit) :
  (∀ x, steps R (body x)) → steps R (for_each l body).
Proof.
  intros H. induction l as [|x l IH]; cbn; [apply steps_ret|].
  apply steps_bind; auto.
Qed.

Lemma steps_read_file p : steps R (read_file p).
Proof. intros s. unfold read_file. by destruct (fs s !! p) as [[|?]|]. Qed.

Lemma steps_open_w p :
  (∀ g s, R s (set_fs g s)) → steps R (open_w p).
Proof.
  intros H s. unfold open_w.
  destruct (fs s !! p) as [[|?]|]; cbn; [reflexivity|apply H|].
  destruct (parent_is_dir _ _); cbn; [apply H|reflexivity].
Qed.

Lemma steps_mkdir p :
  (∀ g s, R s (set_fs g s)) → steps R (mkdir p).
Proof.
  intros H s. unfold mkdir.
  destruct (bool_decide _); cbn; [reflexivity|].
  destruct (parent_is_dir _ _); cbn; [apply H|reflexivity].
Qed.

Lemma steps_makedirs_from fuel p :
  (∀ g s, R s (set_fs g s)) → steps R (makedirs_from fuel p).
Proof.
  intros H. revert p. induction fuel as [|fuel IH]; intros p; cbn;
    (apply steps_bind; [|intros _; by apply steps_mkdir]);
    (destruct (bool_decide _); [apply steps_ret|]);
    (apply steps_bind; [apply steps_gets|intros present]);
    apply steps_when; [apply steps_ret|apply IH].
Qed.
End Steps.

(** A computation that returns did so from each of its two halves. *)
Lemma bind_Ok {A B} (m : M A) (k : A → M B) s b s' :
  bind m k s = (Ok b, s') ↔ ∃ a s1, m s = (Ok a, s1) ∧ k a s1 = (Ok b, s').
Proof.
  unfold bind. split.
  - destruct (m s) as [[a|e] s1]; [eauto|done].
  - intros (a & s1 & -> & H). done.
Qed.

(** Two computations that start alike and go on alike are the same. *)
Lemma bind_cong {A B} (m : M A) (k k' : A → M B) s :
  (∀ a s1, m s = (Ok a, s1) → k a s1 = k' a s1) → bind m k s = bind m k' s.
Proof. intros H. unfold bind. destruct (m s) as [[a|e] s1]; [by apply H|done]. Qed.

Lemma bind_cong_l {A B} (m m' : M A) (k : A → M B) s :
  m s = m' s → bind m k s = bind m' k s.
Proof. intros H. unfold bind. by rewrite H. Qed.

End MonadFacts.

(** * Numerals and percentages *)

Section PyFacts.

Local Abbreviation chars_of d :=
  (list_ascii_of_string (NilEmpty.string_of_uint d)).

Lemma list_ascii_of_string_app (a b : string) :
  list_ascii_of_string (a +:+ b) = list_ascii_of_string a ++ list_ascii_of_string b.
Proof.
  induction a as [|c a IH]; [done|].
  change (c :: list_ascii_of_string (a +:+ b)
          = c :: list_ascii_of_string a ++ list_ascii_of_string b).
  by rewrite IH.
Qed.

Lemma chars_of_uint_digits d : Forall Py.is_digit (chars_of d).
Proof. induction d; cbn; [constructor|constructor; [by eexists|done]..]. Qed.

(** Stripping leaves alone a text that neither begins nor ends with one
    of the characters to strip. *)
Lemma lstrip_head chars c x : c ∉ chars → Py.lstrip chars (c :: x) = c :: x.
Proof. intros H. cbn. by rewrite bool_decide_eq_false_2. Qed.

Lemma lstrip_digits chars x :
  Forall (λ c, ¬ Py.is_digit c) chars → Forall Py.is_digit x → Py.lstrip chars x = x.
Proof.
  intros Hchars Hx. destruct Hx as [|c x Hc Hx]; [done|].
  apply lstrip_head. intros Hin.
  by apply (proj1 (Forall_forall _ _) Hchars c).
Qed.

Lemma rstrip_digits chars x :
  Forall (λ c, ¬ Py.is_digit c) chars → Forall Py.is_digit x → Py.rstrip chars x = x.
Proof.
  intros Hchars Hx. unfold Py.rstrip.
  rewrite lstrip_digits; [apply rev_involutive|done|].
  by apply Forall_rev.
Qed.

Lemma rstrip_snoc chars x c :
  c ∈ chars → Py.rstrip chars (x ++ [c]) = Py.rstrip chars x.
Proof.
  intros H. unfold Py.rstrip. rewrite rev_app_distr. cbn.
  by rewrite bool_decide_eq_true_2.
Qed.

Lemma whitespace_not_digit : Forall (λ c, ¬ Py.is_digit c) Py.whitespace.
Proof. repeat constructor; by intros [? [=]]. Qed.

Lemma percent_not_digit : Forall (λ c, ¬ Py.is_digit c) ["%"%char].
Proof. repeat constructor; by intros [? [=]]. Qed.

(** The value of a numeral read digit by digit is the one the standard
    library gives it. *)
Lemma digits_of_uint_acc d acc :
  Py.digits (Z.pos acc) (chars_of d) = Some (Z.pos (Pos.of_uint_acc d acc)).
Proof.
  revert acc. induction d; intros acc; cbn -[Z.mul Z.add Pos.mul Pos.add];
    [done|rewrite <- IHd; f_equal; lia..].
Qed.

Lemma digits_of_uint d :
  Py.digits 0 (chars_of d) = Some (Z.of_N (Pos.of_uint d)).
Proof.
  induction d; cbn -[Pos.of_uint_acc]; [done|done|apply digits_of_uint_acc..].
Qed.

Lemma numeral_of_uint d :
  d ≠ Decimal.Nil → Py.numeral (chars_of d) = Some (Z.of_N (N.of_uint d)).
Proof. intros H. rewrite <- digits_of_uint. by destruct d. Qed.

Lemma to_uint_nonnil (n : N) : N.to_uint n ≠ Decimal.Nil.
Proof. destruct n; [done|]. apply DecimalPos.Unsigned.to_uint_nonnil. Qed.

Lemma int_digits x :
  x ≠ [] → Forall Py.is_digit x →
  Py.int (string_of_list_ascii x) = Py.numeral x.
Proof.
  intros Hne Hx. unfold Py.int. rewrite list_ascii_of_string_of_list_ascii.
  rewrite (lstrip_digits _ x), (rstrip_digits _ x)
    by auto using whitespace_not_digit.
  destruct Hx as [|c x [d Hc] Hx]; [done|].
  destruct c as [[] [] [] [] [] [] [] []]; by try discriminate Hc.
Qed.

(** [int(str(n))] is [n]. *)
Lemma int_str (n : N) : Py.int (Py.str n) = Some (Z.of_N n).
Proof.
  unfold Py.str.
  rewrite <- (string_of_list_ascii_of_string (NilEmpty.string_of_uint _)).
  rewrite int_digits.
  - rewrite numeral_of_uint by apply to_uint_nonnil.
    by rewrite DecimalN.Unsigned.of_to.
  - pose proof (to_uint_nonnil n). by destruct (N.to_uint n).
  - apply chars_of_uint_digits.
Qed.

(** A digit is a character of ASCII and no underscore. *)
Lemma digit_plain c :
  Py.is_digit c → (nat_of_ascii c <? 128)%nat && negb (Ascii.eqb c "_") = true.
Proof.
  intros [d Hd]. destruct c as [[] [] [] [] [] [] [] []]; by try discriminate Hd.
Qed.

Lemma digits_plain x :
  Forall Py.is_digit x → Py.plain (string_of_list_ascii x) = true.
Proof.
  intros Hx. unfold Py.plain. rewrite list_ascii_of_string_of_list_ascii.
  apply forallb_forall. intros c Hc%list_elem_of_In.
  apply digit_plain. by apply (proj1 (Forall_forall _ _) Hx).
Qed.

(** [str(n)] is a plain text. *)
Lemma str_plain (n : N) : Py.plain (Py.str n) = true.
Proof.
  unfold Py.str.
  rewrite <- (string_of_list_ascii_of_string (NilEmpty.string_of_uint _)).
  apply digits_plain, chars_of_uint_digits.
Qed.

(** [(str(n) + '%').strip('%')] is [str(n)]. *)
Lemma strip_percent (n : N) : Py.strip "%" (Py.str n +:+ "%") = Py.str n.
Proof.
  unfold Py.strip, Py.str. rewrite list_ascii_of_string_app. cbn [list_ascii_of_string].
  pose proof (to_uint_nonnil n) as Hne.
  pose proof (chars_of_uint_digits (N.to_uint n)) as Hd.
  destruct (chars_of (N.to_uint n)) as [|c x] eqn:Hx.
  { by destruct (N.to_uint n). }
  rewrite <- app_comm_cons, lstrip_head.
  - rewrite app_comm_cons, rstrip_snoc by set_solver.
    rewrite rstrip_digits by auto using percent_not_digit.
    by rewrite <- Hx, string_of_list_ascii_of_string.
  - apply Forall_inv in Hd. intros ->%list_elem_of_singleton.
    by destruct Hd as [? [=]].
Qed.

Lemma str_percent_head (n : N) :
  ∃ c x, Py.is_digit c ∧ Py.str n +:+ "%" = String c x.
Proof.
  unfold Py.str. pose proof (to_uint_nonnil n) as Hne.
  pose proof (chars_of_uint_digits (N.to_uint n)) as Hd.
  destruct (N.to_uint n); [done|..]; apply Forall_inv in Hd; eauto.
Qed.

End PyFacts.

(** * Texts that are no numerals *)

Section PyErrors.

Lemma elem_of_lstrip chars c x : c ∈ x → c ∉ chars → c ∈ Py.lstrip chars x.
Proof.
  intros Hin Hc. induction x as [|a x IH]; [done|]. cbn.
  case_bool_decide; [|done].
  apply IH. apply elem_of_cons in Hin as [->|]; done.
Qed.

Lemma elem_of_rstrip chars c x : c ∈ x → c ∉ chars → c ∈ Py.rstrip chars x.
Proof.
  intros Hin Hc. unfold Py.rstrip.
  apply list_elem_of_In, in_rev. rewrite rev_involutive.
  apply list_elem_of_In, elem_of_lstrip; [|done].
  by apply list_elem_of_In, in_rev, list_elem_of_In in Hin.
Qed.

Lemma digits_not_in_numeral c x acc :
  c ∈ x → Py.digit_of c = None → Py.digits acc x = None.
Proof.
  intros Hin Hc. revert acc.
  induction x as [|a x IH]; intros acc; [by inv Hin|].
  apply elem_of_cons in Hin as [<-|Hin]; cbn.
  - by rewrite Hc.
  - destruct (Py.digit_of a); [by apply IH|done].
Qed.

Lemma numeral_not_in_numeral c x :
  c ∈ x → Py.digit_of c = None → Py.numeral x = None.
Proof.
  intros Hin Hc. destruct x; [done|]. by apply digits_not_in_numeral with c.
Qed.

(** What [int] does once the white space is gone: it reads the digits,
    after a sign if there is one. *)
Lemma int_cases (x : string) :
  let l := Py.rstrip Py.whitespace (Py.lstrip Py.whitespace (list_ascii_of_string x)) in
  Py.int x = Py.numeral l ∨
  ∃ a ds, l = a :: ds ∧ (a = "-" ∨ a = "+")%char ∧
          (Py.int x = Z.opp <$> Py.numeral ds ∨ Py.int x = Py.numeral ds).
Proof.
  unfold Py.int. cbn zeta. destruct (Py.rstrip _ _) as [|a ds]; [by left|].
  destruct a as [[] [] [] [] [] [] [] []]; (by left) || (right; eauto 10).
Qed.

(** [int] raises on a text that holds a character no numeral can hold. *)
Lemma int_not_in_numeral (x : string) c :
  c ∈ list_ascii_of_string x → not_in_numeral c → Py.int x = None.
Proof.
  intros Hin [Hd Hc].
  apply not_elem_of_cons in Hc as [Hplus Hc].
  apply not_elem_of_cons in Hc as [Hminus Hws].
  pose proof (elem_of_rstrip Py.whitespace c _
                (elem_of_lstrip Py.whitespace c _ Hin Hws) Hws) as Hl.
  destruct (int_cases x) as [->|(a & ds & Heq & Ha & Hint)].
  - by apply numeral_not_in_numeral with c.
  - rewrite Heq in Hl. apply elem_of_cons in Hl as [->|Hl]; [by destruct Ha|].
    destruct Hint as [-> | ->];
      by rewrite (numeral_not_in_numeral c ds) by done.
Qed.

End PyErrors.

(** * Paths *)

Section PathFacts.

Lemma length_list_ascii (a : string) :
  length (list_ascii_of_string a) = String.length a.
Proof. induction a as [|c a IH]; [done|]. cbn. by rewrite IH. Qed.

Lemma length_string_of_list (x : list ascii) :
  String.length (string_of_list_ascii x) = length x.
Proof. induction x as [|c x IH]; [done|]. cbn. by rewrite IH. Qed.

Lemma length_append (a b : string) :
  String.length (a +:+ b) = (String.length a + String.length b)%nat.
Proof.
  induction a as [|c a IH]; [done|].
  change (S (String.length (a +:+ b)) = S (String.length a + String.length b)).
  by rewrite IH.
Qed.

Lemma length_from_sep x : (length (OsPath.from_sep x) ≤ length x)%nat.
Proof.
  induction x as [|c x IH]; [done|]. cbn. case_bool_decide; cbn; lia.
Qed.

Lemma length_lstrip chars x : (length (Py.lstrip chars x) ≤ length x)%nat.
Proof.
  induction x as [|c x IH]; [done|]. cbn. case_bool_decide; cbn; lia.
Qed.

(** The directory above a path has no longer a name than the path. *)
Lemma length_dirname (p : string) :
  (String.length (OsPath.dirname p) ≤ String.length p)%nat.
Proof.
  unfold OsPath.dirname. rewrite length_string_of_list, <- length_list_ascii.
  pose proof (length_from_sep (rev (list_ascii_of_string p))) as H.
  rewrite length_rev in H.
  destruct (forallb _ _).
  - by rewrite length_rev.
  - unfold Py.rstrip. rewrite length_rev.
    etrans; [apply length_lstrip|]. by rewrite !length_rev.
Qed.

(** A path joined to a directory is longer than the directory, unless it
    starts from the root. *)
Lemma length_join (a p : string) :
  String.prefix "/" p = false → p ≠ "" →
  (String.length a < String.length (OsPath.join a p))%nat.
Proof.
  intros Hp Hne. unfold OsPath.join. rewrite Hp.
  destruct p as [|c p]; [done|].
  destruct (_ || _); rewrite !length_append; cbn; lia.
Qed.





End PathFacts.

(** * Properties of the pass *)

Section GalleryFacts.

Context {Spec Chart Env : Type}.
Variable dict_hash : Spec → string.
Variable from_dict : Spec → Chart.
Variable savechart : Chart → string → filesystem → Env → filesystem * Env * bool.
Variable create_thumbnail :
  string → string → spec_float → filesystem → option filesystem.
Variable int_beyond : string → option Z.

Variables image_dir default_image : string.
Variable make_thumbnails : bool.

Local Abbreviation state := (@state Chart Env).
Local Abbreviation example := (@example Spec).
Local Abbreviation body :=
  (loop_body dict_hash from_dict savechart create_thumbnail int_beyond
     image_dir default_image make_thumbnails).
Local Abbreviation anew :=
  (regenerate dict_hash from_dict savechart create_thumbnail int_beyond
     image_dir default_image make_thumbnails).
Local Abbreviation image_file := (image_file_of image_dir).
Local Abbreviation hash_file := (hash_file_of image_dir).
Local Abbreviation thumbnail :=
  (make_thumbnail (Chart:=Chart) (Env:=Env) create_thumbnail int_beyond image_dir).
Local Abbreviation render ex :=
  (savechart (from_dict (spec ex)) (image_file ex)).
Local Abbreviation image_step ex :=
  (save_image from_dict savechart (dict_hash (spec ex)) (filename_of ex)
     (image_file ex) default_image (spec ex)).
Local Abbreviation failed := (after_failure (Env:=Env) from_dict image_dir).
Local Abbreviation fallback_path :=
  (placeholder_path (Chart:=Chart) (Env:=Env) create_thumbnail int_beyond image_dir
     default_image make_thumbnails).

Ltac run :=
  unfold bind, ret, gets, modify, when, raise, warn, print in *; cbn in *.

Ltac unfold_blocks :=
  unfold regenerate, prepare, load_hashes, placeholder_path, placeholder_fallback,
    make_thumbnail, zoom_of, convert_pct, dict_get, copyfile, makedirs, write,
    path_exists, warn, print.

Lemma steps_call_savechart (R : relation state) c p :
  (∀ s f e, R s (set_fs f (set_env e (emit (SaveChart c p) s)))) →
  steps R (call_savechart savechart c p).
Proof.
  intros H s. unfold call_savechart.
  destruct (savechart c p (fs s) (env s)) as [[f e] ok]. apply H.
Qed.

Lemma steps_call_create_thumbnail (R : relation state) `{!PreOrder R} img th z :
  (∀ s, R s (emit (CreateThumbnail img th z) s)) →
  (∀ s f, R s (set_fs f s)) →
  steps R (call_create_thumbnail create_thumbnail img th z).
Proof.
  intros Hev Hfs. unfold call_create_thumbnail.
  apply steps_bind; [done|by intros ?|]. intros _ s.
  destruct (create_thumbnail _ _ _ _); cbn; [apply Hfs|reflexivity].
Qed.

Lemma steps_set_entry (R : relation state) `{!PreOrder R} key v :
  (∀ s entries, hashes s = VDict entries →
                R s (set_hashes (VDict (<[key := v]> entries)) s)) →
  steps R (set_entry (Chart:=Chart) (Env:=Env) key v).
Proof.
  intros H s. unfold set_entry.
  destruct (hashes s) eqn:E; cbn; try reflexivity. by apply H.
Qed.

(** Splits the proof that a block steps along [R] into one goal for each
    change of the state it makes. *)
Ltac steps_go :=
  repeat first
    [ apply steps_call_create_thumbnail; [apply _|intros ?; cbn|intros ? ?; cbn]
    | apply steps_call_savechart; intros ? ? ?; cbn
    | apply steps_set_entry; [apply _|intros ? ? ?; cbn]
    | apply steps_ret; [apply _]
    | apply steps_raise; [apply _]
    | apply steps_gets; [apply _]
    | apply steps_read_file; [apply _]
    | apply steps_bind; [apply _| |intros ?]
    | apply steps_when; [apply _|]
    | apply steps_open_w; [apply _|intros ? ?; cbn]
    | apply steps_makedirs_from; [apply _|intros ? ?; cbn]
    | match goal with
      | |- steps _ (if ?b then _ else _) => destruct b
      | |- steps _ (match ?x with _ => _ end) => destruct x
      | |- steps _ (modify _) => intros ?; cbn
      end ].

(** ** One turn of the loop *)

Lemma body_skipped (ex : example) (s : state) :
  skipped dict_hash ex s → body ex s = (Ok tt, s).
Proof.
  intros (h & Hh & Heq). unfold loop_body, dict_get. run.
  rewrite Hh. run. by rewrite Heq.
Qed.

Lemma body_not_skipped (ex : example) (s : state) h :
  hashes s = VDict h → ¬ skipped dict_hash ex s → body ex s = anew ex s.
Proof.
  intros Hh H. unfold loop_body, regenerate, dict_get, skipped in *. run.
  rewrite Hh. run.
  destruct (eq_str _ _) eqn:E; [|done]. destruct H. eauto.
Qed.

(** A ledger that is no dict has no [get]. *)
Lemma body_not_dict (ex : example) (s : state) :
  (∀ h, hashes s ≠ VDict h) → body ex s = (Raise AttributeError, s).
Proof.
  intros H. unfold loop_body, dict_get. run.
  destruct (hashes s) eqn:E; try done. by destruct (H entries).
Qed.

Lemma body_cases (ex : example) (s : state) :
  skipped dict_hash ex s ∨
  (∃ h, hashes s = VDict h ∧ ¬ skipped dict_hash ex s) ∨
  body ex s = (Raise AttributeError, s).
Proof.
  destruct (decide (skipped dict_hash ex s)) as [?|Hs]; [by left|]. right.
  destruct (hashes s) eqn:E; try (right; apply body_not_dict; congruence).
  left. eauto.
Qed.

(** With the renderer unavailable, an example that is not skipped takes
    the placeholder path. *)
Lemma body_unavailable (ex : example) (s : state) h :
  hashes s = VDict h → ¬ skipped dict_hash ex s → can_save s = false →
  body ex s = fallback_path ex s.
Proof.
  intros Hh Hskip Hcan. rewrite (body_not_skipped ex s h) by done.
  unfold regenerate, save_image, placeholder_path. run. by rewrite Hcan.
Qed.

(** The thumbnail leaves the locals and the world alone. *)
Lemma thumbnail_same {X} (f : state → X) img (ex : example) :
  (∀ g s, f (set_fs g s) = f s) → (∀ ev s, f (emit ev s) = f s) →
  steps (same f) (thumbnail img ex).
Proof.
  intros Hfs Hev. unfold_blocks. steps_go; first [apply Hev|apply Hfs].
Qed.

Ltac logs_atom :=
  unfold logs; cbn;
  first [ by (exists []; rewrite app_nil_r)
        | by (eexists [_]; split; [done|repeat constructor; cbn; tauto]) ].

(** After a failed render the example takes the placeholder path. *)
Lemma body_render_failed (ex : example) (s : state) h f e :
  hashes s = VDict h → ¬ skipped dict_hash ex s → can_save s = true →
  render ex (fs s) (env s) = (f, e, false) →
  body ex s = fallback_path ex (failed ex f e s).
Proof.
  intros Hh Hskip Hcan Hko. rewrite (body_not_skipped ex s h) by done.
  unfold regenerate, save_image, call_savechart, placeholder_path. run.
  rewrite Hcan. run. by rewrite Hko.
Qed.

Lemma fallback_path_same {X} (f : state → X) (ex : example) :
  (∀ g s, f (set_fs g s) = f s) → (∀ ev s, f (emit ev s) = f s) →
  steps (same f) (fallback_path ex).
Proof. intros Hfs Hev. unfold_blocks. steps_go; first [apply Hev|apply Hfs]. Qed.

Lemma fallback_path_no_savechart (ex : example) :
  steps (logs (λ ev, ¬ is_savechart ev)) (fallback_path ex).
Proof. unfold_blocks. steps_go; logs_atom. Qed.

Lemma body_steps_unavailable (ex : example) : steps unavailable (body ex).
Proof.
  intros s Hcan.
  destruct (body_cases ex s) as [Hs|[(h & Hh & Hs)| ->]].
  - rewrite body_skipped by done. cbn. split; [done|]. split; [done|]. reflexivity.
  - rewrite (body_unavailable ex s h) by done.
    split; [|split].
    + by rewrite (fallback_path_same can_save).
    + by rewrite (fallback_path_same env).
    + apply fallback_path_no_savechart.
  - cbn. split; [done|]. split; [done|]. reflexivity.
Qed.

Lemma body_steps_ledger_grows (ex : example) : steps ledger_grows (body ex).
Proof.
  unfold loop_body, save_image. unfold_blocks. steps_go;
    intros h0 Hh0; cbn in *; try (by exists h0).
  eexists. split; [reflexivity|].
  match goal with |- _ ⊆ dom (<[_ := _]> ?m) => assert (h0 = m) as -> by congruence end.
  set_solver.
Qed.

Lemma body_steps_no_jsondump (ex : example) :
  steps (logs (λ ev, ¬ is_jsondump ev)) (body ex).
Proof.
  unfold loop_body, save_image. unfold_blocks. steps_go; logs_atom.
Qed.

(** C2: an example whose ledger entry equals the hash of its current
    specification is skipped entirely: its turn of the loop returns at
    once and leaves the whole state as it was, so the renderer is not
    invoked, no file is written and no thumbnail is made (the log, the
    file system and the ledger are unchanged). *)
Theorem unchanged_example_is_skipped (ex : example) (s : state)
    (h : gmap string value) :
  hashes s = VDict h →
  h !! (name ex +:+ ".png") = Some (VStr (dict_hash (spec ex))) →
  body ex s = (Ok tt, s).
Proof.
  intros Hh H. apply body_skipped. exists h. split; [done|].
  unfold filename_of. rewrite H. cbn. by apply bool_decide_eq_true_2.
Qed.

(** C3: when an example is rendered (it is not skipped and the renderer
    counts as available) and [savechart] succeeds, the ledger holds the
    new hash under the file name of the example after its turn, whether
    or not the thumbnail step that follows raises; the other entries are
    as before. *)
Theorem rendered_example_updates_ledger (ex : example) (s : state)
    (h : gmap string value) f e :
  hashes s = VDict h →
  ¬ skipped dict_hash ex s →
  can_save s = true →
  render ex (fs s) (env s) = (f, e, true) →
  hashes (body ex s).2
  = VDict (<[name ex +:+ ".png" := VStr (dict_hash (spec ex))]> h).
Proof.
  intros Hh Hskip Hcan Hok. rewrite (body_not_skipped ex s h) by done.
  unfold regenerate, save_image, call_savechart, set_entry. run.
  rewrite Hcan. run. rewrite Hok. run. rewrite Hh.
  destruct make_thumbnails; run; [|done].
  by rewrite (thumbnail_same hashes).
Qed.

(** C9: when the render attempt of an example fails with a process error,
    the ledger in memory is after its turn what it was before: no entry
    is added and none is changed. *)
Theorem failed_render_keeps_ledger (ex : example) (s : state) f e :
  ¬ skipped dict_hash ex s →
  can_save s = true →
  render ex (fs s) (env s) = (f, e, false) →
  hashes (body ex s).2 = hashes s.
Proof.
  intros Hskip Hcan Hko.
  destruct (body_cases ex s) as [Hs|[(h & Hh & _)| ->]]; [done| |done].
  rewrite (body_render_failed ex s h f e) by done.
  by rewrite (fallback_path_same hashes).
Qed.

(** The placeholder is not copied over what is there. *)
Lemma fallback_present (img : string) (s : state) :
  is_Some (fs s !! img) → placeholder_fallback img default_image s = (Ok tt, s).
Proof.
  intros Hex. unfold placeholder_fallback, path_exists. run.
  by rewrite bool_decide_eq_true_2.
Qed.

(** With nothing there, the placeholder is copied if it is a file and the
    directory of the image is there. *)
Lemma fallback_absent (img : string) (s : state) data :
  fs s !! img = None →
  fs s !! default_image = Some (File data) →
  parent_is_dir img (fs s) = true →
  placeholder_fallback img default_image s
  = (Ok tt, set_fs (<[img := File data]> (fs s))
              (emit (CopyFile default_image img) s)).
Proof.
  intros Hno Hdef Hdir.
  unfold placeholder_fallback, path_exists, copyfile, read_file, open_w, write. run.
  rewrite bool_decide_eq_false_2 by (rewrite Hno; by intros [? ?]). cbn.
  rewrite bool_decide_eq_false_2 by (intros [-> _]; congruence). cbn.
  rewrite Hdef. cbn. rewrite Hno, Hdir. cbn. unfold set_fs. cbn.
  by rewrite insert_insert_eq.
Qed.

(** C4: when the placeholder fallback is engaged for an example, because
    the renderer was unavailable from the start or because the render
    attempt has just failed, the rest of its turn is the placeholder
    path; there, with something already at the place of the image,
    nothing is copied and the state stays as it is, and with nothing
    there the placeholder is copied to the place of the image. *)
Theorem placeholder_never_overwrites (ex : example) (s s0 : state)
    (h : gmap string value) :
  hashes s = VDict h →
  ¬ skipped dict_hash ex s →
  (can_save s = false ∧ s0 = s) ∨
  (∃ f e, can_save s = true ∧ render ex (fs s) (env s) = (f, e, false) ∧
          s0 = failed ex f e s) →
  body ex s = fallback_path ex s0 ∧
  (is_Some (fs s0 !! image_file ex) →
     placeholder_fallback (image_file ex) default_image s0 = (Ok tt, s0)) ∧
  (∀ data, fs s0 !! image_file ex = None →
     fs s0 !! default_image = Some (File data) →
     parent_is_dir (image_file ex) (fs s0) = true →
     placeholder_fallback (image_file ex) default_image s0
     = (Ok tt, set_fs (<[image_file ex := File data]> (fs s0))
                 (emit (CopyFile default_image (image_file ex)) s0))).
Proof.
  intros Hh Hskip Hs0. split; [|split].
  - destruct Hs0 as [[Hcan ->]|(f & e & Hcan & Hko & ->)].
    + by apply (body_unavailable ex s h).
    + by apply (body_render_failed ex s h).
  - apply fallback_present.
  - intros data. apply fallback_absent.
Qed.

Lemma bind_state {A B} (m : @M Chart Env A) (k : A → M B) (s : state) :
  (bind m k s).2 =
    match (m s).1 with Ok a => (k a (m s).2).2 | Raise _ => (m s).2 end.
Proof. unfold bind. by destruct (m s) as [[a|e] s1]. Qed.

(** What follows a first part that leaves the state related by [R]... *)
Lemma for_each_cons_steps (R : relation state) `{!PreOrder R}
    (ex : example) post (s : state) :
  (∀ x, steps R (body x)) →
  R (body ex s).2 (for_each (ex :: post) body s).2.
Proof.
  intros H. cbn [for_each]. rewrite bind_state.
  destruct (body ex s).1; [|reflexivity].
  apply (steps_for_each R post _ H).
Qed.

(** C5, as the loop has it: after the first failed render of a pass the
    renderer counts as unavailable to the end of the pass and is not
    called again; each later example that is not skipped by the hash
    check takes the placeholder path. *)
Theorem renderer_not_retried (ex : example) post (s : state)
    (h : gmap string value) f e :
  hashes s = VDict h →
  ¬ skipped dict_hash ex s →
  can_save s = true →
  render ex (fs s) (env s) = (f, e, false) →
  let s' := (for_each (ex :: post) body s).2 in
  can_save s' = false ∧
  (∃ evs, log s' = log s ++ Printed ("-> saving " +:+ image_file ex)
                   :: SaveChart (from_dict (spec ex)) (image_file ex) :: evs ∧
          Forall (λ ev, ¬ is_savechart ev) evs) ∧
  (∀ before ex' later, post = before ++ ex' :: later →
     let s2 := (for_each (ex :: before) body s).2 in
     ¬ skipped dict_hash ex' s2 → body ex' s2 = fallback_path ex' s2).
Proof.
  intros Hh Hskip Hcan Hko.
  assert (Hs1 : can_save (body ex s).2 = false ∧
                logs (λ ev, ¬ is_savechart ev) (failed ex f e s) (body ex s).2).
  { rewrite (body_render_failed ex s h f e) by done. split.
    - by rewrite (fallback_path_same can_save).
    - apply fallback_path_no_savechart. }
  destruct Hs1 as [Hc1 (evs1 & Hl1 & HP1)].
  assert (Hall : ∀ l, unavailable (body ex s).2 (for_each (ex :: l) body s).2).
  { intros l. apply for_each_cons_steps; [apply _|apply body_steps_unavailable]. }
  cbn zeta. split; [|split].
  - by destruct (Hall post Hc1) as (? & _ & _).
  - destruct (Hall post Hc1) as (_ & _ & evs2 & Hl2 & HP2).
    exists (Warned node_warning :: evs1 ++ evs2). split.
    + rewrite Hl2, Hl1. cbn. rewrite <- !app_assoc. reflexivity.
    + constructor; [cbn; tauto|]. by apply Forall_app.
  - intros before ex' later _ Hskip'.
    assert (Hd : ∃ h2, hashes (for_each (ex :: before) body s).2 = VDict h2).
    { destruct (steps_for_each ledger_grows (ex :: before) body
                  body_steps_ledger_grows s h Hh) as (h2 & Hh2 & _). eauto. }
    destruct Hd as [h2 Hh2].
    apply (body_unavailable ex' _ h2); [done..|].
    by destruct (Hall before Hc1) as (? & _ & _).
Qed.

(** The zoom of an example that has a percentage is the text of the
    percentage. *)
Lemma zoom_of_percentage (ex : example) pct (s : state) :
  percentage ex pct →
  ∃ n : N, pct = Z.of_N n ∧ zoom_of ex s = (Ok (VStr (Py.str n +:+ "%")), s).
Proof.
  unfold percentage, background_size, zoom_of, dict_get.
  intros [[(p & -> & Hp) ->]|[[(p & -> & Hp) ->]|(n & (p & -> & Hp) & ->)]];
    run; rewrite Hp; cbn.
  - by exists 100%N.
  - by exists 100%N.
  - exists n. split; [done|].
    rewrite bool_decide_eq_false_2; [done|].
    destruct (str_percent_head n) as (c & x & [d Hd] & ->).
    intros [= -> _]. discriminate Hd.
Qed.

Lemma convert_pct_percent (n : N) (s : state) :
  convert_pct int_beyond (VStr (Py.str n +:+ "%")) s
  = if Binary64.is_finite (Binary64.of_int (Z.of_N n))
    then (Ok (Binary64.mul Binary64.hundredth (Binary64.of_int (Z.of_N n))), s)
    else (Raise OverflowError, s).
Proof.
  unfold convert_pct, int. rewrite strip_percent, str_plain, int_str.
  by destruct (Binary64.is_finite _).
Qed.

(** C8, as the code has it: with thumbnails requested, an example that is
    not skipped by the hash check and whose image step returns gets its
    zoom from its ['backgroundSize']: the float [0.01 * N] for ["N%"],
    and [0.01 * 100], which is [1.0], for ['contains'] and for an absent
    parameter.  With [N] within the floats [create_thumbnail] is called
    with that zoom for [<example-name>-thumb.png] in the image directory,
    and what it makes of the files is what the turn leaves; with [N]
    beyond the floats the turn raises [OverflowError] instead. *)
Theorem thumbnail_zoom (ex : example) (s s1 : state) (pct : Z)
    (h : gmap string value) :
  make_thumbnails = true →
  hashes s = VDict h →
  ¬ skipped dict_hash ex s →
  image_step ex s = (Ok tt, s1) →
  percentage ex pct →
  (pct = 100 →
     Binary64.mul Binary64.hundredth (Binary64.of_int pct) = Binary64.one) ∧
  (Binary64.is_finite (Binary64.of_int pct) = true →
     (∀ f, create_thumbnail (image_file ex)
             (OsPath.join image_dir (name ex +:+ "-thumb.png"))
             (Binary64.mul Binary64.hundredth (Binary64.of_int pct)) (fs s1)
           = Some f →
        body ex s
        = (Ok tt,
           set_fs f
             (emit (CreateThumbnail (image_file ex)
                      (OsPath.join image_dir (name ex +:+ "-thumb.png"))
                      (Binary64.mul Binary64.hundredth (Binary64.of_int pct)))
                s1))) ∧
     (create_thumbnail (image_file ex)
        (OsPath.join image_dir (name ex +:+ "-thumb.png"))
        (Binary64.mul Binary64.hundredth (Binary64.of_int pct)) (fs s1)
      = None →
      body ex s
      = (Raise ThumbnailError,
         emit (CreateThumbnail (image_file ex)
                 (OsPath.join image_dir (name ex +:+ "-thumb.png"))
                 (Binary64.mul Binary64.hundredth (Binary64.of_int pct)))
           s1))) ∧
  (Binary64.is_finite (Binary64.of_int pct) = false →
     body ex s = (Raise OverflowError, s1)).
Proof.
  intros Hmk Hh Hskip Himg Hpct.
  split; [by intros ->|].
  assert (Hbody : body ex s
                  = bind (convert_pct int_beyond (VStr (Py.str (Z.to_N pct) +:+ "%")))
                      (call_create_thumbnail create_thumbnail (image_file ex)
                         (thumb_file_of image_dir ex)) s1
                  ∧ Z.of_N (Z.to_N pct) = pct).
  { destruct (zoom_of_percentage ex pct s1 Hpct) as (n & -> & Hz).
    rewrite N2Z.id. split; [|done].
    rewrite (body_not_skipped ex s h) by done.
    unfold regenerate, bind at 1. rewrite Himg, Hmk. cbn [when].
    unfold make_thumbnail, bind at 1. by rewrite Hz. }
  destruct Hbody as [Hbody Hn].
  pose proof (convert_pct_percent (Z.to_N pct) s1) as Hconv. rewrite Hn in Hconv.
  split; [intros Hfin; split|intros Hfin].
  - intros f Hf. rewrite Hbody. unfold bind at 1. rewrite Hconv, Hfin.
    unfold call_create_thumbnail, thumb_file_of, bind, modify.
    cbn -[Binary64.mul Binary64.of_int OsPath.join]. by rewrite Hf.
  - intros Hf. rewrite Hbody. unfold bind at 1. rewrite Hconv, Hfin.
    unfold call_create_thumbnail, thumb_file_of, bind, modify.
    cbn -[Binary64.mul Binary64.of_int OsPath.join]. by rewrite Hf.
  - rewrite Hbody. unfold bind at 1. by rewrite Hconv, Hfin.
Qed.

(** ** More about one turn of the loop *)

Global Instance frozen_preorder : PreOrder (@frozen Chart Env).
Proof.
  split.
  - by intros s Hc.
  - intros s1 s2 s3 H1 H2 Hc. destruct (H1 Hc) as [Hc2 Hh2].
    destruct (H2 Hc2) as [Hc3 Hh3]. split; [done|congruence].
Qed.

Global Instance from_examples_preorder (l : list example) :
  PreOrder (@from_examples Spec Chart Env dict_hash l).
Proof.
  split.
  - intros s. by left.
  - intros s1 s2 s3 [H1|(h1 & h2 & Hh1 & Hh2 & H1)] [H2|(h2' & h3 & Hh2' & Hh3 & H2)].
    + left. congruence.
    + right. exists h2', h3. split; [congruence|]. split; [done|]. exact H2.
    + right. exists h1, h2. split; [done|]. split; [congruence|]. exact H1.
    + right. exists h1, h3. split; [done|]. split; [done|].
      assert (h2' = h2) as -> by congruence.
      intros k v Hk. destruct (H2 k v Hk) as [Hk2|?]; [by apply H1|by right].
Qed.

Lemma from_examples_mono (l l' : list example) (s s' : state) :
  l ⊆ l' → from_examples dict_hash l s s' → from_examples dict_hash l' s s'.
Proof.
  intros Hl [H|(h & h' & Hh & Hh' & H)]; [by left|].
  right. exists h, h'. split; [done|]. split; [done|].
  intros k v Hk. destruct (H k v Hk) as [?|(ex & Hex & ? & ?)]; [by left|].
  right. exists ex. split; [by apply Hl|done].
Qed.

(** After a successful render the thumbnail is all that is left of the
    turn. *)
Lemma body_render_succeeded (ex : example) (s : state) h f e :
  hashes s = VDict h → ¬ skipped dict_hash ex s → can_save s = true →
  render ex (fs s) (env s) = (f, e, true) →
  body ex s
  = when make_thumbnails (thumbnail (image_file ex) ex)
      (after_success dict_hash from_dict image_dir ex f e h s).
Proof.
  intros Hh Hskip Hcan Hok. rewrite (body_not_skipped ex s h) by done.
  unfold regenerate, save_image, call_savechart, set_entry. run.
  rewrite Hcan. run. rewrite Hok. run. by rewrite Hh.
Qed.

Global Instance entry_kept_preorder k : PreOrder (@entry_kept Chart Env k).
Proof.
  split.
  - intros s h Hh. by exists h.
  - intros s1 s2 s3 H1 H2 h Hh.
    destruct (H1 h Hh) as (h2 & Hh2 & Hk).
    destruct (H2 h2 Hh2) as (h3 & Hh3 & Hk').
    exists h3. split; [done|]. congruence.
Qed.

(** A turn leaves alone the ledger entries of the other file names. *)
Lemma anew_other_entries (ex : example) (k : string) :
  k ≠ filename_of ex → steps (entry_kept k) (anew ex).
Proof.
  intros Hk. unfold regenerate, save_image. unfold_blocks.
  steps_go; intros h0 Hh0; cbn in *; try (by exists h0).
  eexists. split; [reflexivity|].
  match goal with |- <[_ := _]> ?m !! _ = _ => assert (h0 = m) as -> by congruence end.
  by rewrite lookup_insert_ne.
Qed.

Lemma body_other_entries (ex : example) (k : string) :
  k ≠ filename_of ex → steps (entry_kept k) (body ex).
Proof.
  intros Hk s.
  destruct (body_cases ex s) as [Hs|[(h & Hh & Hs)| ->]].
  - rewrite body_skipped by done. reflexivity.
  - rewrite (body_not_skipped ex s h) by done. by apply anew_other_entries.
  - reflexivity.
Qed.

Lemma body_steps_frozen (ex : example) : steps frozen (body ex).
Proof.
  intros s Hcan.
  destruct (body_cases ex s) as [Hs|[(h & Hh & Hs)| ->]].
  - by rewrite body_skipped.
  - rewrite (body_unavailable ex s h) by done. split.
    + by rewrite (fallback_path_same can_save).
    + by rewrite (fallback_path_same hashes).
  - done.
Qed.

Lemma body_steps_from_examples (ex : example) :
  steps (from_examples dict_hash [ex]) (body ex).
Proof.
  unfold loop_body, save_image. unfold_blocks.
  steps_go; try (by left).
  right. eexists _, _. split; [done|]. split; [done|].
  intros k v Hk.
  destruct (decide (filename_of ex = k)) as [<-|Hne].
  - rewrite lookup_insert_eq in Hk. injection Hk as <-.
    right. exists ex. split; [by left|done].
  - rewrite lookup_insert_ne in Hk by done. by left.
Qed.

Lemma body_steps_no_thumbnail (ex : example) :
  make_thumbnails = false →
  steps (logs (λ ev, ¬ is_createthumbnail ev)) (body ex).
Proof.
  intros Hmk. unfold loop_body, save_image. rewrite Hmk. unfold_blocks.
  steps_go; logs_atom.
Qed.

Lemma convert_pct_not_in_numeral (z : string) c (s : state) :
  Py.plain (Py.strip "%" z) = true →
  c ∈ list_ascii_of_string (Py.strip "%" z) → not_in_numeral c →
  convert_pct int_beyond (VStr z) s = (Raise ValueError, s).
Proof.
  intros Hplain Hin Hc. unfold convert_pct, int. rewrite Hplain.
  by rewrite (int_not_in_numeral _ c).
Qed.

(** X6: with thumbnails requested, an example that is not skipped and
    whose ['backgroundSize'] is a string other than ['contains'] that,
    with the ['%'] at its ends stripped, is a plain text (characters of
    ASCII, no underscore) with a character that is neither a digit nor a
    sign nor white space makes its turn raise [ValueError] right after
    the image step: [create_thumbnail] is not called, and what the image
    step did, the new ledger entry in memory included, stays done. *)
Theorem bad_zoom_aborts_turn (ex : example) (s s1 : state) (z : string) c
    (h : gmap string value) :
  make_thumbnails = true →
  hashes s = VDict h →
  ¬ skipped dict_hash ex s →
  image_step ex s = (Ok tt, s1) →
  background_size ex (Some (VStr z)) →
  z ≠ "contains" →
  Py.plain (Py.strip "%" z) = true →
  c ∈ list_ascii_of_string (Py.strip "%" z) →
  not_in_numeral c →
  body ex s = (Raise ValueError, s1).
Proof.
  intros Hmk Hh Hskip Himg (p & Hp & Hz) Hne Hplain Hin Hc.
  rewrite (body_not_skipped ex s h) by done.
  unfold regenerate, bind at 1. rewrite Himg, Hmk.
  cbn [when]. unfold make_thumbnail, zoom_of, dict_get. rewrite Hp. run.
  rewrite Hz. cbn. rewrite bool_decide_eq_false_2 by done.
  by rewrite (convert_pct_not_in_numeral z c).
Qed.

(** A turn that returns with the renderer still counting as available
    leaves its example up to date. *)
Lemma body_rendered (ex : example) (s s' : state) :
  body ex s = (Ok tt, s') → can_save s' = true → skipped dict_hash ex s'.
Proof.
  intros Hrun Hcan.
  destruct (body_cases ex s) as [Hs|[(h & Hh & Hs)|Hr]]; [| |congruence].
  { rewrite body_skipped in Hrun by done. by injection Hrun as <-. }
  destruct (can_save s) eqn:Hcan0.
  - destruct (render ex (fs s) (env s)) as [[f e] [|]] eqn:Hr.
    + rewrite (body_render_succeeded ex s h f e) in Hrun by done.
      assert (Hh' : hashes s' = hashes (after_success dict_hash from_dict image_dir
                                          ex f e h s)).
      { destruct make_thumbnails; [|by injection Hrun as <-].
        apply (f_equal snd) in Hrun. cbn in Hrun. rewrite <- Hrun.
        by rewrite (thumbnail_same hashes). }
      eexists. split; [exact Hh'|]. rewrite lookup_insert_eq. cbn.
      by apply bool_decide_eq_true_2.
    + rewrite (body_render_failed ex s h f e) in Hrun by done.
      apply (f_equal snd) in Hrun. cbn in Hrun. rewrite <- Hrun in Hcan.
      by rewrite (fallback_path_same can_save) in Hcan.
  - pose proof (body_steps_frozen ex s Hcan0) as [Hc _].
    rewrite Hrun in Hc. cbn in Hc. congruence.
Qed.

(** ** The whole pass *)

Section Pass.

Variable png_output_available : Env → bool.
Variable json_load : string → option value.
Variable json_dump : value → string.
Variable iter_examples_with_metadata : list example.

Local Abbreviation pass :=
  (make_images dict_hash png_output_available from_dict savechart
     create_thumbnail json_load json_dump int_beyond iter_examples_with_metadata
     image_dir default_image make_thumbnails).
Local Abbreviation prep := (prepare (Chart:=Chart) png_output_available image_dir).
Local Abbreviation load := (load_hashes (Chart:=Chart) (Env:=Env) json_load hash_file).
Local Abbreviation loop := (for_each iter_examples_with_metadata body).
Local Abbreviation save := (save_hashes (Chart:=Chart) (Env:=Env) json_dump hash_file).
Local Abbreviation start_with v := (modify (Chart:=Chart) (Env:=Env) (set_hashes v)).

(** The ledger file has a longer name than the image directory. *)
Lemma hash_file_longer : (String.length image_dir < String.length hash_file)%nat.
Proof. unfold hash_file_of. by apply length_join. Qed.

Lemma hash_file_ne_image_dir : hash_file ≠ image_dir.
Proof. intros H. pose proof hash_file_longer as Hl. rewrite H in Hl. lia. Qed.

(** Making directories leaves alone the paths with a longer name. *)
Lemma mkdir_other p k :
  p ≠ k → steps (same (λ s : state, fs s !! k)) (mkdir p).
Proof.
  intros Hne s. unfold mkdir, same.
  destruct (bool_decide _); cbn; [done|].
  destruct (parent_is_dir _ _); cbn; [|done]. by apply lookup_insert_ne.
Qed.

Lemma makedirs_from_other fuel p k :
  (String.length p < String.length k)%nat →
  steps (same (λ s : state, fs s !! k)) (makedirs_from fuel p).
Proof.
  revert p. induction fuel as [|fuel IH]; intros p Hlt; cbn;
    (apply steps_bind; [apply _| |intros _; apply mkdir_other; intros ->; lia]);
    (destruct (bool_decide _); [apply steps_ret; apply _|]);
    (apply steps_bind; [apply _|apply steps_gets; apply _|intros present]);
    (apply steps_when; [apply _|]).
  - apply steps_ret; apply _.
  - apply IH. pose proof (length_dirname p). lia.
Qed.

(** What the start of the pass leaves as it is, whether it returns or
    [os.makedirs] raises. *)
Lemma prepare_same {X} (f : state → X) :
  (∀ g s, f (set_fs g s) = f s) → (∀ ev s, f (emit ev s) = f s) →
  (∀ b s, f (set_can_save b s) = f s) →
  steps (same f) prep.
Proof.
  intros Hfs Hev Hcan. unfold_blocks. steps_go; unfold same; cbn; auto.
Qed.

Lemma prepare_hash_file : steps (same (λ s : state, fs s !! hash_file)) prep.
Proof.
  unfold prepare, makedirs, path_exists, warn.
  apply steps_bind; [apply _|apply steps_gets; apply _|intros can].
  apply steps_bind; [apply _|by intros s|intros _].
  apply steps_bind; [apply _| |intros _].
  { apply steps_when; [apply _|]. by intros s. }
  apply steps_bind; [apply _|apply steps_gets; apply _|intros present].
  apply steps_when; [apply _|].
  apply steps_bind; [apply _|by intros s|intros _].
  apply makedirs_from_other, hash_file_longer.
Qed.

Lemma prepare_logs :
  steps (logs (λ ev, ¬ is_image_call ev ∧ ¬ is_jsondump ev)) prep.
Proof. unfold_blocks. steps_go; logs_atom. Qed.

Lemma prepare_can_save (s : state) :
  can_save (prep s).2 = png_output_available (env s).
Proof.
  unfold prepare. unfold bind at 1 2, gets, modify. cbn -[bind].
  match goal with |- can_save (?m ?s0).2 = _ =>
    assert (H : steps (same can_save) m) end.
  { unfold_blocks. steps_go; unfold same; cbn; auto. }
  by rewrite H.
Qed.

Lemma prepare_effect (s : state) :
  can_save (prep s).2 = png_output_available (env s) ∧
  env (prep s).2 = env s ∧ hashes (prep s).2 = hashes s ∧
  fs (prep s).2 !! hash_file = fs s !! hash_file ∧
  logs (λ ev, ¬ is_image_call ev ∧ ¬ is_jsondump ev) s (prep s).2.
Proof.
  split; [apply prepare_can_save|].
  split; [by apply (prepare_same env)|].
  split; [by apply (prepare_same hashes)|].
  split; [apply prepare_hash_file|apply prepare_logs].
Qed.

(** With the image directory there, the start of the pass returns and
    leaves the files alone. *)
Lemma prepare_present (s : state) :
  is_Some (fs s !! image_dir) → ∃ s1, prep s = (Ok tt, s1) ∧ fs s1 = fs s.
Proof.
  intros Hex. unfold prepare, path_exists. run.
  destruct (png_output_available (env s)); run;
    rewrite bool_decide_eq_true_2 by done; run; eauto.
Qed.


Lemma prepare_no_jsondump : steps (logs (λ ev, ¬ is_jsondump ev)) prep.
Proof. unfold_blocks. steps_go; logs_atom. Qed.

Lemma load_no_jsondump : steps (logs (λ ev, ¬ is_jsondump ev)) load.
Proof. unfold_blocks. steps_go; logs_atom. Qed.

Lemma load_hashes_absent (s : state) :
  fs s !! hash_file = None → load s = (Ok tt, set_hashes (VDict ∅) s).
Proof.
  intros H. unfold load_hashes, path_exists. run.
  rewrite bool_decide_eq_false_2; [done|]. rewrite H. by intros [? ?].
Qed.

Lemma load_hashes_file (s : state) text :
  fs s !! hash_file = Some (File text) →
  load s = match json_load text with
           | Some v => (Ok tt, set_hashes v s)
           | None => (Raise ValueError, s)
           end.
Proof.
  intros H. unfold load_hashes, path_exists, read_file. run.
  rewrite bool_decide_eq_true_2 by (by rewrite H). rewrite H.
  by destruct (json_load text).
Qed.

Lemma load_effect (s : state) (v : value) :
  (fs s !! hash_file = None ∧ v = VDict ∅) ∨
  (∃ text, fs s !! hash_file = Some (File text) ∧ json_load text = Some v) →
  load s = (Ok tt, set_hashes v s).
Proof.
  intros [[Hno ->]|(text & Hfile & Hload)].
  - by apply load_hashes_absent.
  - rewrite (load_hashes_file s text) by done. by rewrite Hload.
Qed.

(** Once the ledger is read, the pass is its start followed by the loop
    and the save. *)
Lemma pass_loaded (s : state) (v : value) :
  (fs s !! hash_file = None ∧ v = VDict ∅) ∨
  (∃ text, fs s !! hash_file = Some (File text) ∧ json_load text = Some v) →
  pass s = bind prep (λ _, bind (start_with v) (λ _, bind loop (λ _, save))) s.
Proof.
  intros Hload. unfold make_images.
  destruct (prepare_effect s) as (_ & _ & _ & Hfs & _).
  apply bind_cong. intros [] s1 H1. rewrite H1 in Hfs. cbn [snd] in Hfs.
  apply bind_cong_l. rewrite (load_effect s1 v); [done|]. by rewrite Hfs.
Qed.

Lemma filename_of_inj (x y : example) : filename_of x = filename_of y → name x = name y.
Proof.
  unfold filename_of. intros H.
  apply (f_equal list_ascii_of_string) in H.
  rewrite !list_ascii_of_string_app in H. apply app_inv_tail in H.
  apply (f_equal string_of_list_ascii) in H.
  by rewrite !string_of_list_ascii_of_string in H.
Qed.

Lemma filename_not_in (x : example) (l : list example) :
  name x ∉ name <$> l → ∀ y, y ∈ l → filename_of y ≠ filename_of x.
Proof.
  intros Hx y Hy Heq. apply Hx, list_elem_of_fmap. exists y. split; [|done].
  symmetry. by apply filename_of_inj.
Qed.

(** With no entry for any of the examples, names of their own and hashes
    that are not empty, the loop skips none of them. *)
Lemma loop_regenerates (l : list example) (s : state) (h : gmap string value) :
  hashes s = VDict h →
  NoDup (name <$> l) →
  (∀ ex, ex ∈ l → dict_hash (spec ex) ≠ "") →
  (∀ ex, ex ∈ l → h !! filename_of ex = None) →
  for_each l body s = for_each l anew s.
Proof.
  revert s h. induction l as [|x l IH]; intros s h Hh Hnd Hne Hno; [done|].
  cbn in Hnd. apply NoDup_cons in Hnd as [Hx Hnd]. cbn [for_each].
  assert (Hskip : ¬ skipped dict_hash x s).
  { intros (h' & Hh' & Heq). assert (h' = h) as -> by congruence.
    rewrite Hno in Heq by (by left). cbn in Heq.
    apply bool_decide_eq_true_1 in Heq. by apply (Hne x); [left|]. }
  unfold bind. rewrite (body_not_skipped x s h) by done.
  destruct (anew x s) as [[[]|e] s1] eqn:Hrun; [|done].
  assert (Hh1 : ∃ h1, hashes s1 = VDict h1 ∧ ∀ y, y ∈ l → h1 !! filename_of y = None).
  { pose proof (body_steps_ledger_grows x s h Hh) as (h1 & Hh1 & _).
    rewrite (body_not_skipped x s h), Hrun in Hh1 by done. cbn in Hh1.
    exists h1. split; [done|]. intros y Hy.
    pose proof (anew_other_entries x (filename_of y)
                  (filename_not_in x _ Hx y Hy) s h Hh) as (h1' & Hh1' & Hk).
    rewrite Hrun in Hh1'. cbn in Hh1'. assert (h1' = h1) as -> by congruence.
    rewrite Hk. apply Hno. by right. }
  destruct Hh1 as (h1 & Hh1 & Hno1).
  apply (IH s1 h1); [done..| |done].
  intros ex Hex. apply Hne. by right.
Qed.

(** C1, as the code has it: when the ledger file is absent the pass goes
    on with an empty ledger, and when it holds a text that [json.load]
    accepts the pass goes on with what was read from it; in both cases
    reading the ledger does not raise, and the pass is its start followed
    by the loop and the save.  From an empty ledger, with examples that
    have names of their own and hashes that are not the empty string, the
    loop skips no example: each is rendered anew or gets the placeholder.
    (A text that [json.load] refuses is the matter of
    [load_hashes_corrupt].) *)
Theorem ledger_load_absent_or_valid (s : state) (v : value) :
  (fs s !! hash_file = None ∧ v = VDict ∅) ∨
  (∃ text, fs s !! hash_file = Some (File text) ∧ json_load text = Some v) →
  pass s = bind prep (λ _, bind (start_with v) (λ _, bind loop (λ _, save))) s ∧
  (v = VDict ∅ →
   NoDup (name <$> iter_examples_with_metadata) →
   (∀ ex, ex ∈ iter_examples_with_metadata → dict_hash (spec ex) ≠ "") →
   pass s = bind prep (λ _, bind (start_with v) (λ _,
              bind (for_each iter_examples_with_metadata anew) (λ _, save))) s).
Proof.
  intros Hload. split; [by apply pass_loaded|].
  intros -> Hnd Hne. rewrite (pass_loaded s (VDict ∅)) by done.
  apply bind_cong. intros [] s1 _. apply bind_cong. intros [] s2 H2.
  injection H2 as <-. apply bind_cong_l.
  by apply (loop_regenerates _ _ ∅).
Qed.

(** A ledger file whose text [json.load] refuses makes the pass raise
    [ValueError] before any example is looked at. *)
Lemma load_hashes_corrupt (s : state) text :
  fs s !! hash_file = Some (File text) → json_load text = None →
  pass s = bind prep (λ _, raise ValueError) s.
Proof.
  intros Hfile Hload. unfold make_images.
  destruct (prepare_effect s) as (_ & _ & _ & Hfs & _).
  apply bind_cong. intros [] s1 H1. rewrite H1 in Hfs. cbn [snd] in Hfs.
  unfold bind. rewrite (load_hashes_file s1 text) by congruence.
  by rewrite Hload.
Qed.

Lemma save_hashes_falsy (s : state) :
  truthy (hashes s) = false → save s = (Ok tt, s).
Proof. intros H. unfold save_hashes. run. by rewrite H. Qed.

(** The save of a ledger that is not empty either fails to open the
    ledger file, and then nothing has happened, or leaves the dump in
    it. *)
Lemma save_hashes_truthy (s : state) :
  truthy (hashes s) = true →
  save s = (Raise (OSError hash_file), s) ∨
  save s = (Ok tt,
            set_fs (<[hash_file := File (json_dump (hashes s))]> (fs s))
              (emit (JsonDump hash_file (json_dump (hashes s))) s)).
Proof.
  intros H. unfold save_hashes, open_w, write. run. rewrite H. cbn.
  destruct (fs s !! hash_file) as [[|?]|]; cbn; [by left| |].
  - right. unfold set_fs. cbn. by rewrite insert_insert_eq.
  - destruct (parent_is_dir _ _); cbn; [|by left].
    right. unfold set_fs. cbn. by rewrite insert_insert_eq.
Qed.

Lemma save_hashes_file (s : state) text :
  truthy (hashes s) = true →
  fs s !! hash_file = Some (File text) →
  save s = (Ok tt,
            set_fs (<[hash_file := File (json_dump (hashes s))]> (fs s))
              (emit (JsonDump hash_file (json_dump (hashes s))) s)).
Proof.
  intros H Hfile. unfold save_hashes, open_w, write. run. rewrite H. cbn.
  rewrite Hfile. cbn. unfold set_fs. cbn. by rewrite insert_insert_eq.
Qed.

Lemma save_returns (s s' : state) :
  save s = (Ok tt, s') →
  (truthy (hashes s) = false ∧ s' = s) ∨
  (truthy (hashes s) = true ∧
   s' = set_fs (<[hash_file := File (json_dump (hashes s))]> (fs s))
          (emit (JsonDump hash_file (json_dump (hashes s))) s)).
Proof.
  intros Hrun. destruct (truthy (hashes s)) eqn:Ht.
  - right. split; [done|].
    destruct (save_hashes_truthy s Ht) as [H|H]; congruence.
  - left. split; [done|]. rewrite save_hashes_falsy in Hrun by done. congruence.
Qed.

Lemma save_raises (s s' : state) e : save s = (Raise e, s') → s' = s.
Proof.
  intros Hrun. destruct (truthy (hashes s)) eqn:Ht.
  - destruct (save_hashes_truthy s Ht) as [H|H]; congruence.
  - rewrite save_hashes_falsy in Hrun by done. congruence.
Qed.

(** A pass that returns went through its four parts. *)
Lemma pass_returns (s s' : state) :
  pass s = (Ok tt, s') →
  ∃ s1 s2 s3, prep s = (Ok tt, s1) ∧ load s1 = (Ok tt, s2) ∧
              loop s2 = (Ok tt, s3) ∧ save s3 = (Ok tt, s').
Proof.
  unfold make_images. intros H.
  apply bind_Ok in H as ([] & s1 & H1 & H).
  apply bind_Ok in H as ([] & s2 & H2 & H).
  apply bind_Ok in H as ([] & s3 & H3 & H). eauto 10.
Qed.

Lemma steps_returns {A} (R : relation state) (m : @M Chart Env A) s a s' :
  steps R m → m s = (Ok a, s') → R s s'.
Proof. intros H Hm. specialize (H s). by rewrite Hm in H. Qed.


(** C10: when a pass returns, every file name of the ledger read from
    the ledger file at its start is a file name of the ledger it ends
    with, and that ledger is what the ledger file holds. *)
Theorem ledger_only_grows (s s' : state) text (h0 : gmap string value) k v :
  pass s = (Ok tt, s') →
  fs s !! hash_file = Some (File text) →
  json_load text = Some (VDict h0) →
  h0 !! k = Some v →
  ∃ h', hashes s' = VDict h' ∧ is_Some (h' !! k) ∧
        fs s' !! hash_file = Some (File (json_dump (VDict h'))).
Proof.
  intros H Hfile Hload Hk.
  apply pass_returns in H as (s1 & s2 & s3 & H1 & H2 & H3 & H4).
  destruct (prepare_effect s) as (_ & _ & _ & Hfs & _).
  rewrite H1 in Hfs. cbn in Hfs.
  rewrite (load_hashes_file s1 text) in H2 by congruence.
  rewrite Hload in H2. injection H2 as <-.
  assert (Hgrow : ledger_grows (set_hashes (VDict h0) s1) s3).
  { eapply steps_returns, H3. apply steps_for_each; [apply _|].
    apply body_steps_ledger_grows. }
  destruct (Hgrow h0 eq_refl) as (h3 & Hh3 & Hsub).
  assert (Hin : is_Some (h3 !! k)).
  { apply elem_of_dom, Hsub, elem_of_dom. eauto. }
  assert (Hne : truthy (hashes s3) = true).
  { rewrite Hh3. cbn. apply bool_decide_eq_true_2. intros He.
    rewrite He, lookup_empty in Hin. by destruct Hin. }
  apply save_returns in H4 as [[Ht _]|[_ ->]]; [congruence|]. cbn.
  exists h3. split; [done|]. split; [done|]. rewrite Hh3. apply lookup_insert_eq.
Qed.


(** ** More about the whole pass *)

Lemma bind_Raise {A B} (m : @M Chart Env A) (k : A → M B) s e s' :
  bind m k s = (Raise e, s') ↔
  m s = (Raise e, s') ∨ ∃ a s1, m s = (Ok a, s1) ∧ k a s1 = (Raise e, s').
Proof.
  unfold bind. split.
  - destruct (m s) as [[a|e0] s1]; [eauto|]. intros [= -> ->]. by left.
  - intros [->|(a & s1 & -> & H)]; done.
Qed.

Lemma steps_mono {A} (R R' : relation state) (m : @M Chart Env A) :
  (∀ s s', R s s' → R' s s') → steps R m → steps R' m.
Proof. intros H Hm s. apply H, Hm. Qed.

Lemma steps_result {A} (R : relation state) (m : @M Chart Env A) s r s' :
  steps R m → m s = (r, s') → R s s'.
Proof. intros H Hm. specialize (H s). by rewrite Hm in H. Qed.

Lemma logs_mono (P Q : event → Prop) (s s' : state) :
  (∀ ev, P ev → Q ev) → logs P s s' → logs Q s s'.
Proof.
  intros H (evs & Hlog & HP). exists evs. split; [done|].
  eapply Forall_impl; [exact HP|exact H].
Qed.

(** Whether an example is skipped is a matter of the ledger alone. *)
Lemma skipped_hashes (ex : example) (s t : state) :
  hashes t = hashes s → skipped dict_hash ex s → skipped dict_hash ex t.
Proof. intros Hh (h & Hs & Heq). exists h. split; [congruence|done]. Qed.

Lemma skipped_entry (ex : example) (s : state) (h : gmap string value) :
  hashes s = VDict h →
  skipped dict_hash ex s ↔
  default (VStr "") (h !! filename_of ex) = VStr (dict_hash (spec ex)).
Proof.
  intros Hh. split.
  - intros (h' & Hh' & Heq). assert (h' = h) as -> by congruence.
    destruct (default _ _); try done. cbn in Heq.
    by apply bool_decide_eq_true_1 in Heq as ->.
  - intros Heq. exists h. split; [done|]. rewrite Heq. cbn.
    by apply bool_decide_eq_true_2.
Qed.

(** The loop over examples that are all up to date does nothing. *)
Lemma for_each_all_skipped (l : list example) (s : state) :
  (∀ ex, ex ∈ l → skipped dict_hash ex s) → for_each l body s = (Ok tt, s).
Proof.
  intros H. induction l as [|x l IH]; [done|]. cbn [for_each]. unfold bind.
  rewrite body_skipped by (apply H; by left).
  apply IH. intros ex Hex. apply H. by right.
Qed.

Lemma for_each_from_examples (l : list example) :
  steps (from_examples dict_hash l) (for_each l body).
Proof.
  induction l as [|x l IH]; [apply steps_ret; apply _|]. cbn [for_each].
  apply steps_bind; [apply _| |intros _].
  - eapply steps_mono; [|apply body_steps_from_examples].
    intros s s'. apply from_examples_mono.
    intros y ->%list_elem_of_singleton. by left.
  - eapply steps_mono; [|apply IH].
    intros s s'. apply from_examples_mono. intros y Hy. by right.
Qed.

Lemma for_each_other_entries (l : list example) (k : string) :
  (∀ y, y ∈ l → filename_of y ≠ k) →
  steps (entry_kept k) (for_each l body).
Proof.
  intros H. induction l as [|x l IH]; [apply steps_ret; apply _|]. cbn [for_each].
  apply steps_bind; [apply _| |intros _].
  - apply body_other_entries. intros ->. by apply (H x); [left|].
  - apply IH. intros y Hy. apply H. by right.
Qed.

(** A loop that returns with the renderer still counting as available
    leaves every example up to date, if the examples have names of their
    own. *)
Lemma for_each_rendered (l : list example) (s s' : state) :
  NoDup (name <$> l) →
  for_each l body s = (Ok tt, s') →
  can_save s' = true →
  ∀ ex, ex ∈ l → skipped dict_hash ex s'.
Proof.
  revert s. induction l as [|x l IH]; intros s Hnd Hrun Hcan ex Hex; [by inv Hex|].
  cbn in Hnd. apply NoDup_cons in Hnd as [Hx Hnd].
  cbn [for_each] in Hrun. apply bind_Ok in Hrun as ([] & s1 & H1 & Hrun).
  assert (Hcan1 : can_save s1 = true).
  { destruct (can_save s1) eqn:E; [done|].
    pose proof (steps_for_each unavailable l body body_steps_unavailable s1 E)
      as (Hc & _). rewrite Hrun in Hc. cbn in Hc. congruence. }
  apply elem_of_cons in Hex as [->|Hex]; [|by apply (IH s1)].
  destruct (body_rendered x s s1 H1 Hcan1) as (h1 & Hh1 & Heq).
  destruct (steps_returns _ _ _ _ _
              (for_each_other_entries l (filename_of x) (filename_not_in x l Hx))
              Hrun h1 Hh1) as (h' & Hh' & Hk).
  exists h'. split; [done|]. by rewrite Hk.
Qed.

Lemma load_same {X} (f : state → X) :
  (∀ h s, f (set_hashes h s) = f s) → steps (same f) load.
Proof. intros H. unfold_blocks. steps_go; unfold same; cbn; auto. Qed.

Lemma save_same {X} (f : state → X) :
  (∀ g s, f (set_fs g s) = f s) → (∀ ev s, f (emit ev s) = f s) →
  steps (same f) save.
Proof.
  intros Hfs Hev. unfold save_hashes, write. steps_go; unfold same; cbn; auto.
Qed.

Lemma save_no_savechart : steps (logs (λ ev, ¬ is_savechart ev)) save.
Proof. unfold save_hashes, write. steps_go; logs_atom. Qed.

Lemma save_steps_unavailable : steps unavailable save.
Proof.
  intros s Hcan. split; [|split].
  - by rewrite (save_same can_save).
  - by rewrite (save_same env).
  - apply save_no_savechart.
Qed.

Lemma save_steps_frozen : steps frozen save.
Proof.
  intros s Hcan. split.
  - by rewrite (save_same can_save).
  - by rewrite (save_same hashes).
Qed.

(** A pass in which every example is up to date: once the renderer is
    probed and the directory is there, the ledger is read and dumped
    again, and that is all. *)
Lemma pass_up_to_date (s : state) (h : gmap string value) :
  (fs s !! hash_file = None ∧ h = ∅) ∨
  (∃ text, fs s !! hash_file = Some (File text) ∧ json_load text = Some (VDict h)) →
  (∀ ex, ex ∈ iter_examples_with_metadata →
     default (VStr "") (h !! filename_of ex) = VStr (dict_hash (spec ex))) →
  pass s
  = bind prep (λ _ s1,
      (Ok tt,
       if decide (h = ∅) then set_hashes (VDict h) s1
       else set_fs (<[hash_file := File (json_dump (VDict h))]> (fs s1))
              (emit (JsonDump hash_file (json_dump (VDict h)))
                 (set_hashes (VDict h) s1)))) s.
Proof.
  intros Hload Hall.
  rewrite (pass_loaded s (VDict h)).
  2:{ destruct Hload as [[? ->]|?]; [by left|by right]. }
  destruct (prepare_effect s) as (_ & _ & _ & Hfs & _).
  apply bind_cong. intros [] s1 H1. rewrite H1 in Hfs. cbn [snd] in Hfs.
  unfold bind at 1, modify. unfold bind.
  rewrite for_each_all_skipped.
  2:{ intros ex Hex. apply (skipped_entry ex _ h); [done|]. by apply Hall. }
  destruct (decide (h = ∅)) as [He|Hne].
  - apply save_hashes_falsy. cbn. by apply bool_decide_eq_false_2; auto.
  - destruct Hload as [[_ ->]|(text & Hfile & _)]; [done|].
    rewrite (save_hashes_file (set_hashes (VDict h) s1) text);
      [done|cbn; by apply bool_decide_eq_true_2|cbn; congruence].
Qed.

(** X1: a pass in which the ledger read from the ledger file has, for
    every example, the hash of its current specification calls neither
    the renderer nor [copyfile] nor [create_thumbnail]: once the renderer
    is probed and the image directory is there, it returns, and all it
    has done is to read the ledger and, unless it is empty, dump it
    again.  (If [os.makedirs] raises, that is where the pass ends.) *)
Theorem up_to_date_pass_renders_nothing (s : state) (h : gmap string value) :
  (fs s !! hash_file = None ∧ h = ∅) ∨
  (∃ text, fs s !! hash_file = Some (File text) ∧ json_load text = Some (VDict h)) →
  (∀ ex, ex ∈ iter_examples_with_metadata →
     default (VStr "") (h !! filename_of ex) = VStr (dict_hash (spec ex))) →
  pass s
  = bind prep (λ _ s1,
      (Ok tt,
       if decide (h = ∅) then set_hashes (VDict h) s1
       else set_fs (<[hash_file := File (json_dump (VDict h))]> (fs s1))
              (emit (JsonDump hash_file (json_dump (VDict h)))
                 (set_hashes (VDict h) s1)))) s.
Proof. apply pass_up_to_date. Qed.

(** X2: when the renderer is unavailable from the start, the pass never
    calls it, still counts it as unavailable at its end, and, once its
    start has returned, ends with what it read as the ledger: no entry is
    added or changed, whatever the examples. *)
Theorem unavailable_pass_keeps_ledger (s : state) (v : value) :
  png_output_available (env s) = false →
  (fs s !! hash_file = None ∧ v = VDict ∅) ∨
  (∃ text, fs s !! hash_file = Some (File text) ∧ json_load text = Some v) →
  can_save (pass s).2 = false ∧ env (pass s).2 = env s ∧
  ((prep s).1 = Ok tt → hashes (pass s).2 = v) ∧
  logs (λ ev, ¬ is_savechart ev) s (pass s).2.
Proof.
  intros Hav Hload.
  destruct (prepare_effect s) as (Hcan & Henv & _ & _ & Hlog).
  rewrite Hav in Hcan.
  assert (Hlog' : logs (λ ev, ¬ is_savechart ev) s (prep s).2).
  { eapply logs_mono, Hlog. intros [] [H _]; cbn in *; tauto. }
  assert (Hpass : pass s = match prep s with
                           | (Ok _, s1) => bind loop (λ _, save) (set_hashes v s1)
                           | (Raise e, s1) => (Raise e, s1)
                           end).
  { rewrite (pass_loaded s v) by done. unfold bind at 1.
    by destruct (prep s) as [[[]|e] s1]. }
  rewrite Hpass. destruct (prep s) as [[[]|e] s1]; cbn [fst snd] in *; [|done].
  assert (Hun : steps unavailable (bind loop (λ _, save))).
  { apply steps_bind; [apply _| |intros _; apply save_steps_unavailable].
    apply steps_for_each; [apply _|]. apply body_steps_unavailable. }
  assert (Hfr : steps frozen (bind loop (λ _, save))).
  { apply steps_bind; [apply _| |intros _; apply save_steps_frozen].
    apply steps_for_each; [apply _|]. apply body_steps_frozen. }
  destruct (Hun (set_hashes v s1) Hcan) as (Hc & He & Hl).
  destruct (Hfr (set_hashes v s1) Hcan) as (_ & Hh).
  split; [done|]. split; [by rewrite He|]. split; [done|].
  etrans; [|exact Hl]. exact Hlog'.
Qed.

(** X3: when a pass returns, every entry of the ledger it ends with was
    read from the ledger file or is the hash of the specification of an
    example of the corpus under the file name of its image. *)
Theorem ledger_entries_provenance (s s' : state) (h h' : gmap string value) k v :
  pass s = (Ok tt, s') →
  (fs s !! hash_file = None ∧ h = ∅) ∨
  (∃ text, fs s !! hash_file = Some (File text) ∧ json_load text = Some (VDict h)) →
  hashes s' = VDict h' →
  h' !! k = Some v →
  h !! k = Some v ∨
  ∃ ex, ex ∈ iter_examples_with_metadata ∧
        k = name ex +:+ ".png" ∧ v = VStr (dict_hash (spec ex)).
Proof.
  intros Hpass Hload Hh' Hk.
  apply pass_returns in Hpass as (s1 & s2 & s3 & H1 & H2 & H3 & H4).
  destruct (prepare_effect s) as (_ & _ & _ & Hfs & _).
  rewrite H1 in Hfs. cbn in Hfs.
  rewrite (load_effect s1 (VDict h)) in H2.
  2:{ rewrite Hfs. destruct Hload as [[? ->]|?]; [by left|by right]. }
  injection H2 as <-.
  pose proof (steps_result _ _ _ _ _ (save_same hashes (λ _ _, eq_refl) (λ _ _, eq_refl)) H4)
    as Hsave.
  unfold same in Hsave. rewrite Hsave in Hh'.
  destruct (steps_result _ _ _ _ _ (for_each_from_examples _) H3)
    as [Heq|(h0 & h3 & Hh0 & Hh3 & Hfrom)].
  - left. cbn in Heq. assert (h' = h) as -> by congruence. done.
  - cbn in Hh0. assert (h0 = h) as -> by congruence.
    assert (h3 = h') as -> by congruence. by apply Hfrom.
Qed.

(** X4: a pass that raises has not dumped the ledger, whatever it
    raises: the entries of the images rendered before the exception are
    lost.  (When the ledger file cannot be opened for writing,
    [json.dump] is not reached.) *)
Theorem failed_pass_has_not_dumped (s s' : state) (e : exn) :
  pass s = (Raise e, s') →
  logs (λ ev, ¬ is_jsondump ev) s s'.
Proof.
  intros Hpass. unfold make_images in Hpass.
  apply bind_Raise in Hpass as [H1|([] & s1 & H1 & Hpass)].
  { eapply steps_result, H1. apply prepare_no_jsondump. }
  assert (Hl1 : logs (λ ev, ¬ is_jsondump ev) s s1)
    by (eapply steps_result, H1; apply prepare_no_jsondump).
  apply bind_Raise in Hpass as [H2|([] & s2 & H2 & Hpass)].
  { etrans; [exact Hl1|]. eapply steps_result, H2. apply load_no_jsondump. }
  assert (Hl2 : logs (λ ev, ¬ is_jsondump ev) s s2).
  { etrans; [exact Hl1|]. eapply steps_result, H2. apply load_no_jsondump. }
  apply bind_Raise in Hpass as [H3|([] & s3 & H3 & H4)].
  { etrans; [exact Hl2|]. eapply steps_result, H3.
    apply steps_for_each; [apply _|]. apply body_steps_no_jsondump. }
  apply save_raises in H4 as ->.
  etrans; [exact Hl2|]. eapply steps_result, H3.
  apply steps_for_each; [apply _|]. apply body_steps_no_jsondump.
Qed.

(** X5: a pass without thumbnails never calls [create_thumbnail]. *)
Theorem no_thumbnail_unless_requested :
  make_thumbnails = false →
  steps (logs (λ ev, ¬ is_createthumbnail ev)) pass.
Proof.
  intros Hmk. unfold make_images.
  apply steps_bind; [apply _| |intros _].
  { unfold_blocks. steps_go; logs_atom. }
  apply steps_bind; [apply _| |intros _].
  { unfold_blocks. steps_go; logs_atom. }
  apply steps_bind; [apply _| |intros _].
  { apply steps_for_each; [apply _|]. intros ex. by apply body_steps_no_thumbnail. }
  unfold save_hashes, write. steps_go; logs_atom.
Qed.

(** X7: when a pass returns with the renderer still counting as
    available, that is, the renderer was available and none of its calls
    failed, and the examples have names of their own, every example is up
    to date in the ledger the pass ends with: the ledger is a dict, and
    its entry for the example, read with [''] as default, is the hash of
    the specification. *)
Theorem successful_pass_leaves_all_up_to_date (s s' : state) :
  NoDup (name <$> iter_examples_with_metadata) →
  pass s = (Ok tt, s') →
  can_save s' = true →
  ∀ ex, ex ∈ iter_examples_with_metadata →
    ∃ h', hashes s' = VDict h' ∧
          default (VStr "") (h' !! (name ex +:+ ".png")) = VStr (dict_hash (spec ex)).
Proof.
  intros Hnd Hpass Hcan ex Hex.
  apply pass_returns in Hpass as (s1 & s2 & s3 & H1 & H2 & H3 & H4).
  pose proof (steps_result _ _ _ _ _
                (save_same hashes (λ _ _, eq_refl) (λ _ _, eq_refl)) H4) as Hsave.
  pose proof (steps_result _ _ _ _ _
                (save_same can_save (λ _ _, eq_refl) (λ _ _, eq_refl)) H4) as Hsavec.
  unfold same in Hsave, Hsavec. rewrite Hsavec in Hcan.
  destruct (for_each_rendered _ _ _ Hnd H3 Hcan ex Hex) as (h3 & Hh3 & Heq).
  exists h3. split; [congruence|].
  apply (skipped_entry ex s3 h3); [done|]. by exists h3.
Qed.

(** X8: a pass after a pass that returned with the renderer still
    counting as available renders nothing, if the examples have names of
    their own: if the ledger the first pass ended with is not empty and
    [json.load] reads it back from what [json.dump] wrote, and the image
    directory is still there, a second pass from the files the first one
    left returns having only read the ledger and dumped it again. *)
Theorem second_pass_renders_nothing (s s' t : state) :
  json_load (json_dump (hashes s')) = Some (hashes s') →
  NoDup (name <$> iter_examples_with_metadata) →
  pass s = (Ok tt, s') →
  can_save s' = true →
  truthy (hashes s') = true →
  is_Some (fs s' !! image_dir) →
  fs t = fs s' →
  pass t = (Ok tt,
            set_fs (<[hash_file := File (json_dump (hashes s'))]> (fs (prep t).2))
              (emit (JsonDump hash_file (json_dump (hashes s')))
                 (set_hashes (hashes s') (prep t).2))).
Proof.
  intros Hjson Hnd Hpass Hcan Hne Hdir Hfs.
  assert (Hfile : fs s' !! hash_file = Some (File (json_dump (hashes s')))).
  { pose proof Hpass as Hp.
    apply pass_returns in Hp as (s1 & s2 & s3 & _ & _ & _ & H4).
    pose proof (steps_result _ _ _ _ _
                  (save_same hashes (λ _ _, eq_refl) (λ _ _, eq_refl)) H4) as Hsave.
    unfold same in Hsave. rewrite Hsave in Hne |- *.
    apply save_returns in H4 as [[Ht _]|[_ ->]]; [congruence|].
    cbn. apply lookup_insert_eq. }
  assert (Hall : ∀ ex, ex ∈ iter_examples_with_metadata → skipped dict_hash ex s').
  { intros ex Hex.
    apply pass_returns in Hpass as (s1 & s2 & s3 & H1 & H2 & H3 & H4).
    pose proof (steps_result _ _ _ _ _
                  (save_same hashes (λ _ _, eq_refl) (λ _ _, eq_refl)) H4) as Hsave.
    pose proof (steps_result _ _ _ _ _
                  (save_same can_save (λ _ _, eq_refl) (λ _ _, eq_refl)) H4) as Hsavec.
    unfold same in Hsave, Hsavec. rewrite Hsavec in Hcan.
    apply (skipped_hashes ex s3); [done|].
    by apply (for_each_rendered iter_examples_with_metadata s2). }
  destruct (prepare_present t) as (t1 & Hprep & Hfs1); [by rewrite Hfs|].
  rewrite (pass_loaded t (hashes s')).
  2:{ right. exists (json_dump (hashes s')). by rewrite Hfs. }
  unfold bind at 1. rewrite Hprep. cbn [snd]. unfold bind at 1, modify. unfold bind.
  rewrite for_each_all_skipped.
  2:{ intros ex Hex. by apply (skipped_hashes ex s'); [|apply Hall]. }
  rewrite (save_hashes_file (set_hashes (hashes s') t1) (json_dump (hashes s')));
    [done|done|cbn; by rewrite Hfs1, Hfs].
Qed.

(** X15: a ledger file that holds JSON which is no object (a list, a
    string, a number, [true], [false] or [null]) is read without an
    error; with an example to look at, the first turn of the loop then
    raises [AttributeError] at [hashes.get], before anything is rendered
    or copied, and the pass ends there. *)
Theorem non_dict_ledger_raises (s : state) text (v : value) ex rest :
  fs s !! hash_file = Some (File text) →
  json_load text = Some v →
  (∀ h, v ≠ VDict h) →
  iter_examples_with_metadata = ex :: rest →
  pass s = bind prep (λ _ s1, (Raise AttributeError, set_hashes v s1)) s.
Proof.
  intros Hfile Hload Hv Hcorpus. rewrite (pass_loaded s v) by eauto.
  apply bind_cong. intros [] s1 _. unfold bind at 1, modify.
  rewrite Hcorpus. cbn [for_each]. unfold bind.
  by rewrite body_not_dict.
Qed.

Local Abbreviation ready :=
  (placeholder_ready (Chart:=Chart) (Env:=Env) image_dir default_image hash_file).







End Pass.

End GalleryFacts.
(** * The content hash does not depend on the order of the keys *)

Section UtilsFacts.

Import Utils.

Global Instance key_le_transitive : Transitive key_le.
Proof. intros a b c. unfold key_le. apply transitivity. Qed.

Global Instance key_le_total : Total key_le.
Proof. intros a b. unfold key_le. apply total, _. Qed.

(** Induction on documents, with the hypothesis for every item of an
    array and every value of an object. *)
Lemma json_induction (P : json → Prop) :
  P JNull → (∀ b, P (JBool b)) → (∀ n, P (JNumber n)) → (∀ s, P (JString s)) →
  (∀ items, Forall P items → P (JArray items)) →
  (∀ members, Forall (λ kv, P kv.2) members → P (JObject members)) →
  ∀ d, P d.
Proof.
  intros Hnull Hbool Hnum Hstr Harr Hobj.
  fix go 1.
  intros [| b | n | s | items | members];
    [exact Hnull|apply Hbool|apply Hnum|apply Hstr| |].
  - apply Harr. induction items as [|x items IH]; constructor; [apply go|exact IH].
  - apply Hobj.
    induction members as [|[k v] members IH]; constructor; [apply go|exact IH].
Qed.

Lemma unique_keys_items items :
  unique_keys (JArray items) ↔ Forall unique_keys items.
Proof.
  cbn. induction items as [|x items IH]; cbn.
  - split; [constructor|done].
  - rewrite Forall_cons, IH. done.
Qed.

Lemma unique_keys_members members :
  unique_keys (JObject members) ↔
  NoDup (map fst members) ∧ Forall (λ kv, unique_keys kv.2) members.
Proof.
  cbn. apply and_iff_compat_l.
  induction members as [|x members IH]; cbn.
  - split; [constructor|done].
  - rewrite Forall_cons, IH. done.
Qed.

(** In a list with every key once, a member is known by its key. *)
Lemma member_by_key {A} (l : list (string * A)) x y :
  NoDup (map fst l) → x ∈ l → y ∈ l → x.1 = y.1 → x = y.
Proof.
  induction l as [|z l IH]; cbn; intros Hnd Hx Hy Hxy; [by inv Hx|].
  apply NoDup_cons in Hnd as [Hz Hnd].
  apply elem_of_cons in Hx as [->|Hx]; apply elem_of_cons in Hy as [->|Hy];
    [done| | |by apply IH].
  - destruct Hz. rewrite Hxy. by apply list_elem_of_fmap_2.
  - destruct Hz. rewrite <- Hxy. by apply list_elem_of_fmap_2.
Qed.

(** Sorting by key forgets the order the members came in. *)
Lemma merge_sort_members (l1 l2 : list (string * string)) :
  NoDup (map fst l1) → l1 ≡ₚ l2 →
  merge_sort key_le l1 = merge_sort key_le l2.
Proof.
  intros Hnd Hperm. apply (StronglySorted_unique_strong key_le).
  - intros x1 x2 H1 H2 H12 H21.
    rewrite (merge_sort_Permutation key_le) in H1.
    rewrite (merge_sort_Permutation key_le), <- Hperm in H2.
    apply (member_by_key l1); [done..|].
    by apply (anti_symm String.le).
  - apply StronglySorted_merge_sort; apply _.
  - apply StronglySorted_merge_sort; apply _.
  - by rewrite !(merge_sort_Permutation key_le).
Qed.

Lemma serialize_same_pairs d1 d2 :
  unique_keys d1 → same_pairs d1 d2 → serialize d1 = serialize d2.
Proof.
  revert d2. induction d1 as [| | | |items IH|members IH] using json_induction;
    intros d2 Huk Hsame; inv Hsame; try done.
  - cbn. do 3 f_equal.
    apply unique_keys_items in Huk.
    match goal with H : Forall2 same_pairs _ _ |- _ =>
      induction H as [|x y l l' Hxy Hll IHl]; [done|] end.
    apply Forall_cons in IH as [IHx IH]. apply Forall_cons in Huk as [Hx Huk].
    cbn. f_equal; auto.
  - apply unique_keys_members in Huk as [Hnd Huk]. cbn. do 4 f_equal.
    match goal with
    | Hp : members ≡ₚ ?m, H2 : Forall2 _ ?m ?m2 |- _ =>
        rename m into mid; rename m2 into members2;
        rename Hp into Hperm; rename H2 into Hsame
    end.
    rewrite (merge_sort_members _ (map (λ kv, (kv.1, serialize kv.2)) mid)).
    + f_equal. rewrite Hperm in IH, Huk. clear Hperm Hnd.
      induction Hsame as [|[k v] [k' v'] l l' [Hk Hv] Hll IHl]; [done|].
      apply Forall_cons in IH as [IHx IH]. apply Forall_cons in Huk as [Hx Huk].
      cbn in *. subst k'. f_equal; [f_equal|]; auto.
    + by rewrite map_map, (map_ext _ fst).
    + by apply Permutation_map.
Qed.

(** C7: two specification documents with the same key/value pairs, the
    keys of their objects in whatever order, have the same hash. *)
Theorem dict_hash_order_independent (digest : string → string) (d1 d2 : json) :
  unique_keys d1 → same_pairs d1 d2 →
  dict_hash digest d1 = dict_hash digest d2.
Proof. intros Huk Hsame. unfold dict_hash. f_equal. by apply serialize_same_pairs. Qed.

End UtilsFacts.


(** * The theorems at work on a small gallery *)

Section Witnesses.

Import Sample.

Lemma unchanged_example_is_skipped_witness :
  hashes (midway {[ "bar.png" := VStr (dict_hash (spec bar)) ]} true [true])
  = VDict {[ "bar.png" := VStr (dict_hash (spec bar)) ]} ∧
  ({[ "bar.png" := VStr (dict_hash (spec bar)) ]} : gmap string value)
    !! (name bar +:+ ".png") = Some (VStr (dict_hash (spec bar))) ∧
  loop_body bar (midway {[ "bar.png" := VStr (dict_hash (spec bar)) ]} true [true])
  = (Ok tt, midway {[ "bar.png" := VStr (dict_hash (spec bar)) ]} true [true]).
Proof.
  split; [reflexivity|]. split; [reflexivity|].
  by apply (unchanged_example_is_skipped dict_hash from_dict savechart
              create_thumbnail int_beyond "img" "static/gray.png" true bar
              (midway {[ "bar.png" := VStr (dict_hash (spec bar)) ]} true [true])
              {[ "bar.png" := VStr (dict_hash (spec bar)) ]}).
Defined.

Lemma rendered_example_updates_ledger_witness :
  hashes (midway ∅ true [true]) = VDict ∅ ∧
  ¬ skipped dict_hash bar (midway ∅ true [true]) ∧
  can_save (midway ∅ true [true]) = true ∧
  savechart (from_dict (spec bar)) (image_file_of "img" bar)
    (fs (midway ∅ true [true])) (env (midway ∅ true [true]))
  = (<["img/bar.png" := File ("png " +:+ Utils.serialize (spec bar))]> with_images,
     [], true) ∧
  hashes (loop_body bar (midway ∅ true [true])).2
  = VDict (<[name bar +:+ ".png" := VStr (dict_hash (spec bar))]> ∅).
Proof.
  assert (H : ¬ skipped dict_hash bar (midway ∅ true [true])).
  { intros (h & [= <-] & Heq). by vm_compute in Heq. }
  split; [reflexivity|]. split; [exact H|]. split; [reflexivity|].
  split; [reflexivity|].
  by apply (rendered_example_updates_ledger dict_hash from_dict savechart
              create_thumbnail int_beyond "img" "static/gray.png" true bar
              (midway ∅ true [true]) ∅
              (<["img/bar.png" := File ("png " +:+ Utils.serialize (spec bar))]>
                 with_images) []).
Defined.

Lemma failed_render_keeps_ledger_witness :
  ¬ skipped dict_hash bar (midway ∅ true [false]) ∧
  can_save (midway ∅ true [false]) = true ∧
  savechart (from_dict (spec bar)) (image_file_of "img" bar)
    (fs (midway ∅ true [false])) (env (midway ∅ true [false]))
  = (with_images, [], false) ∧
  hashes (loop_body bar (midway ∅ true [false])).2 = hashes (midway ∅ true [false]).
Proof.
  assert (H : ¬ skipped dict_hash bar (midway ∅ true [false])).
  { intros (h & [= <-] & Heq). by vm_compute in Heq. }
  split; [exact H|]. split; [reflexivity|]. split; [reflexivity|].
  by apply (failed_render_keeps_ledger dict_hash from_dict savechart
              create_thumbnail int_beyond "img" "static/gray.png" true bar
              (midway ∅ true [false]) with_images []).
Defined.

(** The renderer fails on [bar], whose image of an earlier pass is in
    place: the image is still there after the turn. *)
Lemma placeholder_never_overwrites_witness :
  hashes (midway_old_bar true [false]) = VDict ∅ ∧
  ¬ skipped dict_hash bar (midway_old_bar true [false]) ∧
  ((can_save (midway_old_bar true [false]) = false ∧
    after_failure from_dict "img" bar with_old_bar [] (midway_old_bar true [false])
    = midway_old_bar true [false]) ∨
   (∃ f e, can_save (midway_old_bar true [false]) = true ∧
           savechart (from_dict (spec bar)) (image_file_of "img" bar)
             (fs (midway_old_bar true [false])) (env (midway_old_bar true [false]))
           = (f, e, false) ∧
           after_failure from_dict "img" bar with_old_bar [] (midway_old_bar true [false])
           = after_failure from_dict "img" bar f e (midway_old_bar true [false]))) ∧
  fs (after_failure from_dict "img" bar with_old_bar [] (midway_old_bar true [false]))
    !! image_file_of "img" bar = Some (File "png of old") ∧
  loop_body bar (midway_old_bar true [false])
  = placeholder_path create_thumbnail int_beyond "img" "static/gray.png" true bar
      (after_failure from_dict "img" bar with_old_bar [] (midway_old_bar true [false])) ∧
  placeholder_fallback (image_file_of "img" bar) "static/gray.png"
    (after_failure from_dict "img" bar with_old_bar [] (midway_old_bar true [false]))
  = (Ok tt,
     after_failure from_dict "img" bar with_old_bar [] (midway_old_bar true [false])) ∧
  fs (loop_body bar (midway_old_bar true [false])).2 !! image_file_of "img" bar
  = Some (File "png of old").
Proof.
  assert (H : ¬ skipped dict_hash bar (midway_old_bar true [false])).
  { intros (h & [= <-] & Heq). by vm_compute in Heq. }
  assert (Hengaged :
    ∃ f e, can_save (midway_old_bar true [false]) = true ∧
           savechart (from_dict (spec bar)) (image_file_of "img" bar)
             (fs (midway_old_bar true [false])) (env (midway_old_bar true [false]))
           = (f, e, false) ∧
           after_failure from_dict "img" bar with_old_bar [] (midway_old_bar true [false])
           = after_failure from_dict "img" bar f e (midway_old_bar true [false])).
  { exists with_old_bar, []. repeat split. }
  destruct (placeholder_never_overwrites dict_hash from_dict savechart
              create_thumbnail int_beyond "img" "static/gray.png" true bar
              (midway_old_bar true [false])
              (after_failure from_dict "img" bar with_old_bar []
                 (midway_old_bar true [false]))
              ∅ eq_refl H (or_intror Hengaged)) as (Hpath & Hkept & _).
  split; [reflexivity|]. split; [exact H|]. split; [by right|].
  split; [reflexivity|]. split; [exact Hpath|].
  split; [apply Hkept; by eexists|]. vm_compute. reflexivity.
Defined.

Lemma renderer_not_retried_witness :
  hashes (midway ∅ true [false; true]) = VDict ∅ ∧
  ¬ skipped dict_hash bar (midway ∅ true [false; true]) ∧
  can_save (midway ∅ true [false; true]) = true ∧
  savechart (from_dict (spec bar)) (image_file_of "img" bar)
    (fs (midway ∅ true [false; true])) (env (midway ∅ true [false; true]))
  = (with_images, [true], false) ∧
  (can_save (for_each [bar; area; line] loop_body (midway ∅ true [false; true])).2 = false ∧
   (∃ evs,
      log (for_each [bar; area; line] loop_body (midway ∅ true [false; true])).2
      = log (midway ∅ true [false; true])
        ++ Printed ("-> saving " +:+ image_file_of "img" bar)
           :: SaveChart (from_dict (spec bar)) (image_file_of "img" bar) :: evs ∧
      Forall (λ ev, ¬ is_savechart ev) evs) ∧
   (∀ before ex' later, [area; line] = before ++ ex' :: later →
      ¬ skipped dict_hash ex'
          (for_each (bar :: before) loop_body (midway ∅ true [false; true])).2 →
      loop_body ex' (for_each (bar :: before) loop_body (midway ∅ true [false; true])).2
      = placeholder_path create_thumbnail int_beyond "img" "static/gray.png" true ex'
          (for_each (bar :: before) loop_body (midway ∅ true [false; true])).2)).
Proof.
  assert (H : ¬ skipped dict_hash bar (midway ∅ true [false; true])).
  { intros (h & [= <-] & Heq). by vm_compute in Heq. }
  split; [reflexivity|]. split; [exact H|]. split; [reflexivity|].
  split; [reflexivity|].
  by apply (renderer_not_retried dict_hash from_dict savechart
              create_thumbnail int_beyond "img" "static/gray.png" true bar
              [area; line] (midway ∅ true [false; true]) ∅ with_images [true]).
Defined.

(** [area] has a ['backgroundSize'] of ["50%"]: its thumbnail is made
    with the zoom 0.5. *)
Lemma thumbnail_zoom_witness :
  true = true ∧
  hashes (midway ∅ true [true]) = VDict ∅ ∧
  ¬ skipped dict_hash area (midway ∅ true [true]) ∧
  save_image from_dict savechart (dict_hash (spec area)) (filename_of area)
    (image_file_of "img" area) "static/gray.png" (spec area) (midway ∅ true [true])
  = (Ok tt,
     (save_image from_dict savechart (dict_hash (spec area)) (filename_of area)
        (image_file_of "img" area) "static/gray.png" (spec area)
        (midway ∅ true [true])).2) ∧
  percentage area 50 ∧
  Binary64.is_finite (Binary64.of_int 50) = true ∧
  Binary64.mul Binary64.hundredth (Binary64.of_int 50)
  = S754_finite false 4503599627370496 (-53) ∧
  create_thumbnail (image_file_of "img" area)
    (OsPath.join "img" (name area +:+ "-thumb.png"))
    (Binary64.mul Binary64.hundredth (Binary64.of_int 50))
    (fs (save_image from_dict savechart (dict_hash (spec area)) (filename_of area)
           (image_file_of "img" area) "static/gray.png" (spec area)
           (midway ∅ true [true])).2)
  = Some (<["img/area-thumb.png" :=
              File ("thumb png " +:+ Utils.serialize (spec area))]>
            (<["img/area.png" := File ("png " +:+ Utils.serialize (spec area))]>
               with_images)) ∧
  loop_body area (midway ∅ true [true])
  = (Ok tt,
     set_fs (<["img/area-thumb.png" :=
                 File ("thumb png " +:+ Utils.serialize (spec area))]>
               (<["img/area.png" := File ("png " +:+ Utils.serialize (spec area))]>
                  with_images))
       (emit (CreateThumbnail (image_file_of "img" area)
                (OsPath.join "img" (name area +:+ "-thumb.png"))
                (Binary64.mul Binary64.hundredth (Binary64.of_int 50)))
          (save_image from_dict savechart (dict_hash (spec area)) (filename_of area)
             (image_file_of "img" area) "static/gray.png" (spec area)
             (midway ∅ true [true])).2)).
Proof.
  assert (H : ¬ skipped dict_hash area (midway ∅ true [true])).
  { intros (h & [= <-] & Heq). by vm_compute in Heq. }
  assert (Hpct : percentage area 50).
  { right. right. exists 50%N. split; [|reflexivity]. by eexists. }
  assert (Hfin : Binary64.is_finite (Binary64.of_int 50) = true) by reflexivity.
  assert (Hth :
    create_thumbnail (image_file_of "img" area)
      (OsPath.join "img" (name area +:+ "-thumb.png"))
      (Binary64.mul Binary64.hundredth (Binary64.of_int 50))
      (fs (save_image from_dict savechart (dict_hash (spec area)) (filename_of area)
             (image_file_of "img" area) "static/gray.png" (spec area)
             (midway ∅ true [true])).2)
    = Some (<["img/area-thumb.png" :=
                File ("thumb png " +:+ Utils.serialize (spec area))]>
              (<["img/area.png" := File ("png " +:+ Utils.serialize (spec area))]>
                 with_images))) by reflexivity.
  destruct (thumbnail_zoom dict_hash from_dict savechart create_thumbnail int_beyond
              "img" "static/gray.png" true area (midway ∅ true [true])
              (save_image from_dict savechart (dict_hash (spec area)) (filename_of area)
                 (image_file_of "img" area) "static/gray.png" (spec area)
                 (midway ∅ true [true])).2
              50 ∅ eq_refl eq_refl H eq_refl Hpct) as (_ & Hmade & _).
  destruct (Hmade Hfin) as [Hok _].
  split; [reflexivity|]. split; [reflexivity|]. split; [exact H|].
  split; [reflexivity|]. split; [exact Hpct|]. split; [exact Hfin|].
  split; [reflexivity|]. split; [exact Hth|]. exact (Hok _ Hth).
Defined.

(** A pass over [bar] and [area] without a ledger file: neither is
    skipped. *)
Lemma ledger_load_absent_or_valid_witness :
  ((fs (start with_images [true; true]) !! hash_file_of "img" = None ∧
    VDict ∅ = VDict ∅) ∨
   (∃ text, fs (start with_images [true; true]) !! hash_file_of "img"
            = Some (File text) ∧
            Json.load text = Some (VDict ∅))) ∧
  NoDup (name <$> [bar; area]) ∧
  (∀ ex, ex ∈ [bar; area] → dict_hash (spec ex) ≠ "") ∧
  make_images [bar; area] "img" "static/gray.png" true (start with_images [true; true])
  = bind (prepare png_output_available "img")
      (λ _, bind (modify (set_hashes (VDict ∅)))
         (λ _, bind (for_each [bar; area] loop_body)
            (λ _, save_hashes Json.dump (hash_file_of "img"))))
      (start with_images [true; true]) ∧
  make_images [bar; area] "img" "static/gray.png" true (start with_images [true; true])
  = bind (prepare png_output_available "img")
      (λ _, bind (modify (set_hashes (VDict ∅)))
         (λ _, bind (for_each [bar; area]
                       (regenerate dict_hash from_dict savechart create_thumbnail
                          int_beyond "img" "static/gray.png" true))
            (λ _, save_hashes Json.dump (hash_file_of "img"))))
      (start with_images [true; true]).
Proof.
  assert (Hnd : NoDup (name <$> [bar; area])) by (by apply (bool_decide_unpack _)).
  assert (Hne : ∀ ex, ex ∈ [bar; area] → dict_hash (spec ex) ≠ "").
  { intros ex Hex. apply elem_of_cons in Hex as [->|Hex]; [discriminate|].
    apply elem_of_cons in Hex as [->|Hex]; [discriminate|]. by inv Hex. }
  destruct (ledger_load_absent_or_valid dict_hash from_dict savechart
              create_thumbnail int_beyond "img" "static/gray.png" true
              png_output_available Json.load Json.dump [bar; area]
              (start with_images [true; true]) (VDict ∅)) as [Hpass Hall].
  { left. split; reflexivity. }
  split; [left; split; reflexivity|]. split; [exact Hnd|]. split; [exact Hne|].
  split; [exact Hpass|]. exact (Hall eq_refl Hnd Hne).
Defined.


Lemma ledger_only_grows_witness :
  growing_pass = (Ok tt, growing_pass.2) ∧
  fs (start (with_ledger old_ledger) [true]) !! hash_file_of "img"
  = Some (File (Json.dump (VDict old_ledger))) ∧
  Json.load (Json.dump (VDict old_ledger)) = Some (VDict old_ledger) ∧
  old_ledger !! "old.png" = Some (VStr "abc") ∧
  ∃ h', hashes growing_pass.2 = VDict h' ∧ is_Some (h' !! "old.png") ∧
        fs growing_pass.2 !! hash_file_of "img" = Some (File (Json.dump (VDict h'))).
Proof.
  assert (H : growing_pass = (Ok tt, growing_pass.2)) by (vm_compute; reflexivity).
  assert (Hfile : fs (start (with_ledger old_ledger) [true]) !! hash_file_of "img"
                  = Some (File (Json.dump (VDict old_ledger)))) by reflexivity.
  assert (Hload : Json.load (Json.dump (VDict old_ledger)) = Some (VDict old_ledger))
    by (vm_compute; reflexivity).
  split; [exact H|]. split; [exact Hfile|]. split; [exact Hload|].
  split; [reflexivity|].
  apply (ledger_only_grows dict_hash from_dict savechart
           create_thumbnail int_beyond "img" "static/gray.png" true
           png_output_available Json.load Json.dump [bar]
           (start (with_ledger old_ledger) [true])
           growing_pass.2 (Json.dump (VDict old_ledger)) old_ledger "old.png"
           (VStr "abc"));
    [exact H|exact Hfile|exact Hload|reflexivity].
Defined.

Lemma dict_hash_order_independent_witness :
  Utils.unique_keys scatter ∧ Utils.same_pairs scatter scatter' ∧
  dict_hash scatter = dict_hash scatter'.
Proof.
  assert (Huk : Utils.unique_keys scatter).
  { cbn. repeat split; by apply (bool_decide_unpack _). }
  assert (Hsame : Utils.same_pairs scatter scatter').
  { eapply Utils.same_object; [apply perm_swap|].
    repeat constructor; cbn.
    eapply Utils.same_object; [apply perm_swap|]. repeat constructor. }
  split; [exact Huk|]. split; [exact Hsame|].
  by apply dict_hash_order_independent.
Defined.

(** A ledger file that is not JSON makes the whole pass fail: the
    [ValueError] of [json.load] leaves [make_images] before any example
    is looked at; nothing has been done by then. *)
Lemma corrupt_ledger_fails_pass :
  fs (start corrupt_ledger [true]) !! "img" = Some Dir ∧
  fs (start corrupt_ledger [true]) !! hash_file_of "img" = Some (File "{") ∧
  corrupt_pass = (Raise ValueError, set_can_save true (start corrupt_ledger [true])).
Proof. repeat split; vm_compute; reflexivity. Qed.

(** After the failed render of [bar], [area], whose ledger entry is up
    to date, is skipped: although nothing is at the place of its image,
    no placeholder is copied there and no thumbnail is made, which is
    not what the placeholder path does. *)
Lemma later_unchanged_example_is_skipped :
  can_save after_failed_bar = false ∧
  loop_body area after_failed_bar = (Ok tt, after_failed_bar) ∧
  fs after_failed_bar !! image_file_of "img" area = None ∧
  fs (placeholder_path create_thumbnail int_beyond "img" "static/gray.png" true area
        after_failed_bar).2 !! image_file_of "img" area = Some gray ∧
  stale_pass.1 = Ok tt ∧
  fs stale_pass.2 !! image_file_of "img" area = None ∧
  log stale_pass.2 =
    [Printed "-> saving img/bar.png";
     SaveChart (spec bar) "img/bar.png";
     Warned node_warning;
     CopyFile "static/gray.png" "img/bar.png";
     CreateThumbnail "img/bar.png" "img/bar-thumb.png" Binary64.one;
     JsonDump "img/_image_hashes.json" (Json.dump (VDict unchanged_area))].
Proof. repeat split; vm_compute; reflexivity. Qed.

(** A percentage beyond the floats makes the turn raise [OverflowError]
    after the image was rendered: [create_thumbnail] is not called and no
    thumbnail is there.  And the zoom of ["35%"] is not the float nearest
    to 35/100, which is what [35 / 100.0] gives. *)
Lemma huge_percentage_raises :
  background_size Corpus.huge (Some (VStr (Py.str (10 ^ 400) +:+ "%"))) ∧
  (loop_body Corpus.huge (midway ∅ true [true])).1 = Raise OverflowError ∧
  log (loop_body Corpus.huge (midway ∅ true [true])).2
  = [Printed "-> saving img/huge.png"; SaveChart (spec Corpus.huge) "img/huge.png"] ∧
  fs (loop_body Corpus.huge (midway ∅ true [true])).2 !! "img/huge-thumb.png" = None ∧
  Binary64.mul Binary64.hundredth (Binary64.of_int 35)
  ≠ Binary64.div (Binary64.of_int 35) (Binary64.of_int 100).
Proof.
  split; [by eexists|]. split; [vm_compute; reflexivity|].
  split; [vm_compute; reflexivity|]. split; [vm_compute; reflexivity|].
  vm_compute. discriminate.
Qed.

End Witnesses.
(** * The examples [populate_examples] goes on with *)

Section PopulateFacts.

Context {Spec : Type}.
Local Abbreviation gallery_example := (@gallery_example Spec).
Variable shuffled : Z → list gallery_example → list gallery_example.
Variable iter_examples_with_metadata : list gallery_example.

Local Abbreviation selected :=
  (selected_examples shuffled iter_examples_with_metadata).
Local Abbreviation candidates category_wanted :=
  (match category_wanted with
   | Some c => filter (λ ex : gallery_example, category ex = c)
                 iter_examples_with_metadata
   | None => iter_examples_with_metadata
   end).

Global Instance by_name_transitive : Transitive (@by_name Spec).
Proof. intros a b c. unfold by_name. apply transitivity. Qed.

Lemma insert_by_name_Permutation (x : gallery_example) l :
  insert_by_name x l ≡ₚ x :: l.
Proof.
  induction l as [|y l IH]; [done|]. cbn. case_decide; [done|].
  by rewrite IH, Permutation_swap.
Qed.

Lemma sorted_by_name_Permutation (l : list gallery_example) :
  sorted_by_name l ≡ₚ l.
Proof.
  induction l as [|x l IH]; [done|]. cbn.
  by rewrite insert_by_name_Permutation, IH.
Qed.

Lemma insert_by_name_sorted (x : gallery_example) l :
  StronglySorted by_name l → StronglySorted by_name (insert_by_name x l).
Proof.
  induction 1 as [|y l Hl IH Hy]; cbn; [by repeat constructor|].
  case_decide as Hxy.
  - constructor; [by constructor|]. constructor; [done|].
    eapply Forall_impl; [exact Hy|]. intros z Hz. by etrans.
  - constructor; [done|]. rewrite insert_by_name_Permutation.
    constructor; [|done]. unfold by_name in *.
    by destruct (total String.le (name_of x) (name_of y)).
Qed.

Lemma sorted_by_name_sorted (l : list gallery_example) :
  StronglySorted by_name (sorted_by_name l).
Proof.
  induction l as [|x l IH]; cbn; [constructor|by apply insert_by_name_sorted].
Qed.

(** Items of the same name stay in the order they came in. *)
Lemma insert_by_name_stable (k : string) (x : gallery_example) l :
  StronglySorted by_name l →
  filter (λ ex, name_of ex = k) (insert_by_name x l)
  = filter (λ ex, name_of ex = k) (x :: l).
Proof.
  induction 1 as [|y l Hl IH Hy]; [done|]. cbn. case_decide as Hxy; [done|].
  rewrite !filter_cons, IH, !filter_cons.
  destruct (decide (name_of x = k)) as [Hx|Hx]; [|done].
  destruct (decide (name_of y = k)) as [Hy'|Hy']; [|done].
  destruct Hxy. unfold by_name. by rewrite Hx, Hy'.
Qed.

Lemma sorted_by_name_stable (k : string) (l : list gallery_example) :
  filter (λ ex, name_of ex = k) (sorted_by_name l)
  = filter (λ ex, name_of ex = k) l.
Proof.
  induction l as [|x l IH]; [done|].
  change (sorted_by_name (x :: l)) with (insert_by_name x (sorted_by_name l)).
  rewrite insert_by_name_stable by apply sorted_by_name_sorted.
  by rewrite !filter_cons, IH.
Qed.

Lemma StronglySorted_sublist {A} (R : relation A) (l1 l2 : list A) :
  l1 `sublist_of` l2 → StronglySorted R l2 → StronglySorted R l1.
Proof.
  induction 1 as [|x l1 l2 Hsub IH|x l1 l2 Hsub IH]; intros Hs; [done|..].
  - apply StronglySorted_inv in Hs as [Hs Hx]. constructor; [by apply IH|].
    apply Forall_forall. intros y Hy.
    apply (proj1 (Forall_forall _ _) Hx). by eapply elem_of_sublist.
  - apply StronglySorted_inv in Hs as [Hs _]. by apply IH.
Qed.

Lemma filter_sublist {A} (P : A → Prop) `{!∀ x, Decision (P x)} (l1 l2 : list A) :
  l1 `sublist_of` l2 → filter P l1 `sublist_of` filter P l2.
Proof.
  induction 1 as [|x l1 l2 Hsub IH|x l1 l2 Hsub IH]; [done|..];
    rewrite ?filter_cons; destruct (decide (P x)); try done.
  - by constructor.
  - by constructor.
Qed.

Lemma upto_sublist {A} (n : Z) (l : list A) : Slice.upto n l `sublist_of` l.
Proof. unfold Slice.upto. case_decide; apply sublist_take. Qed.

(** What is left after the sort and the filter. *)
Lemma selected_unshuffled num category_wanted seed :
  selected num category_wanted false seed `sublist_of`
    sorted_by_name iter_examples_with_metadata.
Proof.
  unfold selected_examples.
  assert (Hf : match category_wanted with
               | Some c => filter (λ ex : gallery_example, category ex = c)
                             (sorted_by_name iter_examples_with_metadata)
               | None => sorted_by_name iter_examples_with_metadata
               end `sublist_of` sorted_by_name iter_examples_with_metadata).
  { destruct category_wanted; [apply sublist_filter|done]. }
  destruct num; [|done]. etrans; [apply upto_sublist|done].
Qed.

(** X9: without [shuffle], the examples come in the order of their
    names, and those of one name in the order of the corpus. *)
Theorem unshuffled_examples_sorted num category_wanted seed :
  StronglySorted by_name (selected num category_wanted false seed) ∧
  ∀ k, filter (λ ex, name_of ex = k) (selected num category_wanted false seed)
       `sublist_of` filter (λ ex, name_of ex = k) iter_examples_with_metadata.
Proof.
  split.
  - eapply StronglySorted_sublist; [apply selected_unshuffled|].
    apply sorted_by_name_sorted.
  - intros k. rewrite <- (sorted_by_name_stable k iter_examples_with_metadata).
    apply filter_sublist, selected_unshuffled.
Qed.

Lemma candidates_Permutation category_wanted :
  match category_wanted with
  | Some c => filter (λ ex : gallery_example, category ex = c)
                (sorted_by_name iter_examples_with_metadata)
  | None => sorted_by_name iter_examples_with_metadata
  end ≡ₚ candidates category_wanted.
Proof. destruct category_wanted; by rewrite sorted_by_name_Permutation. Qed.

Lemma selected_all_Permutation category_wanted shuffle seed :
  (∀ seed l, shuffled seed l ≡ₚ l) →
  selected None category_wanted shuffle seed ≡ₚ candidates category_wanted.
Proof.
  intros Hperm. unfold selected_examples. destruct shuffle.
  - rewrite Hperm. apply candidates_Permutation.
  - apply candidates_Permutation.
Qed.

Lemma selected_some n category_wanted shuffle seed :
  selected (Some n) category_wanted shuffle seed
  = Slice.upto n (selected None category_wanted shuffle seed).
Proof. done. Qed.

(** X10: without a count, the examples are those of the corpus that
    have the category asked for, each as often as the corpus has it. *)
Theorem examples_of_category (c : string) shuffle seed :
  (∀ seed l, shuffled seed l ≡ₚ l) →
  selected_examples shuffled iter_examples_with_metadata None (Some c)
    shuffle seed
  ≡ₚ filter (λ ex, category ex = c) iter_examples_with_metadata.
Proof. intros Hperm. by apply (selected_all_Permutation (Some c)). Qed.

(** X11: whatever is asked for, every example returned is an example of
    the corpus, of the category asked for if one is, and none is returned
    more often than the corpus has it. *)
Theorem examples_from_corpus num category_wanted shuffle seed :
  (∀ seed l, shuffled seed l ≡ₚ l) →
  selected_examples shuffled iter_examples_with_metadata num category_wanted
    shuffle seed
  ⊆+ candidates category_wanted.
Proof.
  intros Hperm. rewrite <- (selected_all_Permutation category_wanted shuffle seed Hperm).
  destruct num as [n|]; [|done].
  rewrite selected_some. apply sublist_submseteq, upto_sublist.
Qed.

(** X12: a count [n] that is not negative gives the first [n] of the
    candidates in the order they are in, or all of them if there are
    fewer; a negative count gives all but the last [-n] of them, and none
    if there are no more: the examples come from the front of the list,
    and those left out are its last ones. *)
Theorem examples_count (n : Z) category_wanted shuffle seed :
  (∀ seed l, shuffled seed l ≡ₚ l) →
  ∃ dropped,
    selected_examples shuffled iter_examples_with_metadata None
      category_wanted shuffle seed
    = selected_examples shuffled iter_examples_with_metadata (Some n)
        category_wanted shuffle seed ++ dropped ∧
    length (selected_examples shuffled iter_examples_with_metadata (Some n)
              category_wanted shuffle seed)
    = if decide (0 ≤ n)
      then (Z.to_nat n `min` length (candidates category_wanted))%nat
      else (length (candidates category_wanted) - Z.to_nat (- n))%nat.
Proof.
  intros Hperm. rewrite selected_some.
  rewrite <- (Permutation_length (selected_all_Permutation category_wanted shuffle seed Hperm)).
  unfold Slice.upto. case_decide.
  - eexists. split; [symmetry; apply take_drop|]. rewrite length_take. lia.
  - eexists. split; [symmetry; apply take_drop|]. rewrite length_take. lia.
Qed.

(** X13: asking for more examples keeps the first ones: the examples for
    a count are the first of the examples for a larger count. *)
Theorem examples_prefix (n m : Z) category_wanted shuffle seed :
  0 ≤ n → n ≤ m →
  selected_examples shuffled iter_examples_with_metadata (Some n)
    category_wanted shuffle seed
  `prefix_of`
  selected_examples shuffled iter_examples_with_metadata (Some m)
    category_wanted shuffle seed.
Proof.
  intros Hn Hm. rewrite !selected_some. unfold Slice.upto.
  rewrite !decide_True by lia.
  replace (Z.to_nat n) with (Z.to_nat n `min` Z.to_nat m)%nat by lia.
  rewrite <- take_take. apply prefix_take.
Qed.

End PopulateFacts.

(** * More of the theorems at work *)

Section MoreWitnesses.

Import Sample.

Lemma up_to_date_pass_renders_nothing_witness :
  ((fs (start (with_ledger Corpus.current) [true]) !! hash_file_of "img" = None ∧
    Corpus.current = ∅) ∨
   (∃ text, fs (start (with_ledger Corpus.current) [true]) !! hash_file_of "img"
            = Some (File text) ∧
            Json.load text = Some (VDict Corpus.current))) ∧
  (∀ ex, ex ∈ [bar; area] →
     default (VStr "") (Corpus.current !! filename_of ex)
     = VStr (dict_hash (spec ex))) ∧
  Corpus.current_pass
  = bind (prepare png_output_available "img")
      (λ _ s1,
         (Ok tt,
          if decide (Corpus.current = ∅) then set_hashes (VDict Corpus.current) s1
          else set_fs (<[hash_file_of "img" := File (Json.dump (VDict Corpus.current))]>
                         (fs s1))
                 (emit (JsonDump (hash_file_of "img") (Json.dump (VDict Corpus.current)))
                    (set_hashes (VDict Corpus.current) s1))))
      (start (with_ledger Corpus.current) [true]) ∧
  Corpus.current_pass.1 = Ok tt ∧
  log Corpus.current_pass.2
  = [JsonDump (hash_file_of "img") (Json.dump (VDict Corpus.current))].
Proof.
  assert (Hload : ∃ text,
            fs (start (with_ledger Corpus.current) [true]) !! hash_file_of "img"
            = Some (File text) ∧ Json.load text = Some (VDict Corpus.current)).
  { exists (Json.dump (VDict Corpus.current)). split; vm_compute; reflexivity. }
  assert (Hall : ∀ ex, ex ∈ [bar; area] →
            default (VStr "") (Corpus.current !! filename_of ex)
            = VStr (dict_hash (spec ex))).
  { intros ex Hex. apply elem_of_cons in Hex as [->|Hex]; [reflexivity|].
    apply elem_of_cons in Hex as [->|Hex]; [reflexivity|]. by inv Hex. }
  split; [by right|]. split; [exact Hall|].
  split; [|split; vm_compute; reflexivity].
  apply (up_to_date_pass_renders_nothing dict_hash from_dict savechart
           create_thumbnail int_beyond "img" "static/gray.png" true
           png_output_available Json.load Json.dump [bar; area]
           (start (with_ledger Corpus.current) [true]) Corpus.current);
    [by right|exact Hall].
Defined.

Lemma unavailable_pass_keeps_ledger_witness :
  png_output_available (env (start static_only [])) = false ∧
  ((fs (start static_only []) !! hash_file_of "img" = None ∧
    VDict ∅ = VDict ∅) ∨
   (∃ text, fs (start static_only []) !! hash_file_of "img" = Some (File text) ∧
            Json.load text = Some (VDict ∅))) ∧
  (prepare png_output_available "img"
     (start static_only [] : @state Utils.json (list bool))).1 = Ok tt ∧
  can_save (make_images [bar; area] "img" "static/gray.png" true
              (start static_only [])).2 = false ∧
  env (make_images [bar; area] "img" "static/gray.png" true
         (start static_only [])).2 = env (start static_only []) ∧
  hashes (make_images [bar; area] "img" "static/gray.png" true
            (start static_only [])).2 = VDict ∅ ∧
  logs (λ ev, ¬ is_savechart ev) (start static_only [])
    (make_images [bar; area] "img" "static/gray.png" true (start static_only [])).2.
Proof.
  destruct (unavailable_pass_keeps_ledger dict_hash from_dict savechart
              create_thumbnail int_beyond "img" "static/gray.png" true
              png_output_available Json.load Json.dump [bar; area]
              (start static_only []) (VDict ∅))
    as (Hcan & Henv & Hh & Hlog); [reflexivity|by left|].
  split; [reflexivity|]. split; [by left|]. split; [reflexivity|].
  split; [exact Hcan|]. split; [exact Henv|]. split; [by apply Hh|exact Hlog].
Defined.

Lemma ledger_entries_provenance_witness :
  growing_pass = (Ok tt, growing_pass.2) ∧
  ((fs (start (with_ledger old_ledger) [true]) !! hash_file_of "img" = None ∧
    old_ledger = ∅) ∨
   (∃ text, fs (start (with_ledger old_ledger) [true]) !! hash_file_of "img"
            = Some (File text) ∧ Json.load text = Some (VDict old_ledger))) ∧
  hashes growing_pass.2
  = VDict (<["bar.png" := VStr (dict_hash (spec bar))]> old_ledger) ∧
  <["bar.png" := VStr (dict_hash (spec bar))]> old_ledger !! "bar.png"
  = Some (VStr (dict_hash (spec bar))) ∧
  (old_ledger !! "bar.png" = Some (VStr (dict_hash (spec bar))) ∨
   ∃ ex, ex ∈ [bar] ∧ "bar.png" = name ex +:+ ".png" ∧
         VStr (dict_hash (spec bar)) = VStr (dict_hash (spec ex))).
Proof.
  assert (H : growing_pass = (Ok tt, growing_pass.2)) by (vm_compute; reflexivity).
  assert (Hload : ∃ text,
            fs (start (with_ledger old_ledger) [true]) !! hash_file_of "img"
            = Some (File text) ∧ Json.load text = Some (VDict old_ledger)).
  { exists (Json.dump (VDict old_ledger)). split; vm_compute; reflexivity. }
  assert (Hh : hashes growing_pass.2
               = VDict (<["bar.png" := VStr (dict_hash (spec bar))]> old_ledger))
    by (vm_compute; reflexivity).
  assert (Hk : <["bar.png" := VStr (dict_hash (spec bar))]> old_ledger !! "bar.png"
               = Some (VStr (dict_hash (spec bar)))) by (vm_compute; reflexivity).
  split; [exact H|]. split; [by right|]. split; [exact Hh|]. split; [exact Hk|].
  apply (ledger_entries_provenance dict_hash from_dict savechart
           create_thumbnail int_beyond "img" "static/gray.png" true
           png_output_available Json.load Json.dump [bar]
           (start (with_ledger old_ledger) [true]) growing_pass.2 old_ledger
           (<["bar.png" := VStr (dict_hash (spec bar))]> old_ledger));
    [exact H|by right|exact Hh|exact Hk].
Defined.

(** [bar] is rendered, then the zoom of [cover] makes the pass raise: the
    entry of [bar] is in the ledger in memory, and no ledger file is
    there. *)
Lemma failed_pass_has_not_dumped_witness :
  Corpus.aborted_pass = (Raise ValueError, Corpus.aborted_pass.2) ∧
  hashes Corpus.aborted_pass.2
  = VDict {[ "bar.png" := VStr (dict_hash (spec bar));
             "cover.png" := VStr (dict_hash (spec Corpus.cover)) ]} ∧
  fs Corpus.aborted_pass.2 !! hash_file_of "img" = None ∧
  logs (λ ev, ¬ is_jsondump ev) (start static_only [true; true]) Corpus.aborted_pass.2.
Proof.
  assert (H : Corpus.aborted_pass = (Raise ValueError, Corpus.aborted_pass.2))
    by (vm_compute; reflexivity).
  split; [exact H|]. split; [vm_compute; reflexivity|].
  split; [vm_compute; reflexivity|].
  apply (failed_pass_has_not_dumped dict_hash from_dict savechart
           create_thumbnail int_beyond "img" "static/gray.png" true
           png_output_available Json.load Json.dump [bar; Corpus.cover]
           (start static_only [true; true]) Corpus.aborted_pass.2 ValueError).
  exact H.
Defined.

Lemma no_thumbnail_unless_requested_witness :
  false = false ∧
  steps (logs (λ ev, ¬ is_createthumbnail ev))
    (make_images [bar; area] "img" "static/gray.png" false).
Proof.
  split; [reflexivity|].
  apply (no_thumbnail_unless_requested dict_hash from_dict savechart
           create_thumbnail int_beyond "img" "static/gray.png" false
           png_output_available Json.load Json.dump [bar; area]). reflexivity.
Defined.

Lemma bad_zoom_aborts_turn_witness :
  true = true ∧
  hashes (midway ∅ true [true]) = VDict ∅ ∧
  ¬ skipped dict_hash Corpus.cover (midway ∅ true [true]) ∧
  save_image from_dict savechart (dict_hash (spec Corpus.cover))
    (filename_of Corpus.cover) (image_file_of "img" Corpus.cover)
    "static/gray.png" (spec Corpus.cover) (midway ∅ true [true])
  = (Ok tt,
     (save_image from_dict savechart (dict_hash (spec Corpus.cover))
        (filename_of Corpus.cover) (image_file_of "img" Corpus.cover)
        "static/gray.png" (spec Corpus.cover) (midway ∅ true [true])).2) ∧
  background_size Corpus.cover (Some (VStr "cover")) ∧
  "cover" ≠ "contains" ∧
  Py.plain (Py.strip "%" "cover") = true ∧
  "c"%char ∈ list_ascii_of_string (Py.strip "%" "cover") ∧
  not_in_numeral "c" ∧
  loop_body Corpus.cover (midway ∅ true [true])
  = (Raise ValueError,
     (save_image from_dict savechart (dict_hash (spec Corpus.cover))
        (filename_of Corpus.cover) (image_file_of "img" Corpus.cover)
        "static/gray.png" (spec Corpus.cover) (midway ∅ true [true])).2).
Proof.
  assert (Hskip : ¬ skipped dict_hash Corpus.cover (midway ∅ true [true])).
  { intros (h & [= <-] & Heq). by vm_compute in Heq. }
  assert (Hsize : background_size Corpus.cover (Some (VStr "cover")))
    by (by eexists).
  assert (Hin : "c"%char ∈ list_ascii_of_string (Py.strip "%" "cover"))
    by (vm_compute; left).
  assert (Hc : not_in_numeral "c").
  { split; [reflexivity|]. by apply (bool_decide_unpack _). }
  split; [reflexivity|]. split; [reflexivity|]. split; [exact Hskip|].
  split; [reflexivity|]. split; [exact Hsize|]. split; [discriminate|].
  split; [reflexivity|]. split; [exact Hin|]. split; [exact Hc|].
  by apply (bad_zoom_aborts_turn dict_hash from_dict savechart create_thumbnail
              int_beyond "img" "static/gray.png" true Corpus.cover
              (midway ∅ true [true]) _ "cover" "c"%char ∅).
Defined.

(** The renderer of the samples with two renders ahead that succeed. *)
Lemma successful_pass_leaves_all_up_to_date_witness :
  NoDup (name <$> [bar; area]) ∧
  Corpus.first_pass = (Ok tt, Corpus.first_pass.2) ∧
  can_save Corpus.first_pass.2 = true ∧
  ∀ ex, ex ∈ [bar; area] →
    ∃ h', hashes Corpus.first_pass.2 = VDict h' ∧
          default (VStr "") (h' !! (name ex +:+ ".png")) = VStr (dict_hash (spec ex)).
Proof.
  assert (Hnd : NoDup (name <$> [bar; area])) by (by apply (bool_decide_unpack _)).
  assert (H : Corpus.first_pass = (Ok tt, Corpus.first_pass.2))
    by (vm_compute; reflexivity).
  assert (Hcan : can_save Corpus.first_pass.2 = true) by (vm_compute; reflexivity).
  split; [exact Hnd|]. split; [exact H|]. split; [exact Hcan|].
  apply (successful_pass_leaves_all_up_to_date dict_hash from_dict
           savechart create_thumbnail int_beyond "img" "static/gray.png" true
           png_output_available Json.load Json.dump [bar; area]
           (start static_only [true; true]) Corpus.first_pass.2);
    [exact Hnd|exact H|exact Hcan].
Defined.

Lemma second_pass_renders_nothing_witness :
  Json.load (Json.dump (hashes Corpus.first_pass.2))
  = Some (hashes Corpus.first_pass.2) ∧
  NoDup (name <$> [bar; area]) ∧
  Corpus.first_pass = (Ok tt, Corpus.first_pass.2) ∧
  can_save Corpus.first_pass.2 = true ∧
  truthy (hashes Corpus.first_pass.2) = true ∧
  is_Some (fs Corpus.first_pass.2 !! "img") ∧
  fs Corpus.second_start = fs Corpus.first_pass.2 ∧
  make_images [bar; area] "img" "static/gray.png" true Corpus.second_start
  = (Ok tt,
     set_fs (<[hash_file_of "img" := File (Json.dump (hashes Corpus.first_pass.2))]>
               (fs (prepare png_output_available "img" Corpus.second_start).2))
       (emit (JsonDump (hash_file_of "img") (Json.dump (hashes Corpus.first_pass.2)))
          (set_hashes (hashes Corpus.first_pass.2)
             (prepare png_output_available "img" Corpus.second_start).2))).
Proof.
  assert (Hjson : Json.load (Json.dump (hashes Corpus.first_pass.2))
                  = Some (hashes Corpus.first_pass.2)) by (vm_compute; reflexivity).
  assert (Hnd : NoDup (name <$> [bar; area])) by (by apply (bool_decide_unpack _)).
  assert (H : Corpus.first_pass = (Ok tt, Corpus.first_pass.2))
    by (vm_compute; reflexivity).
  assert (Hcan : can_save Corpus.first_pass.2 = true) by (vm_compute; reflexivity).
  assert (Hne : truthy (hashes Corpus.first_pass.2) = true)
    by (vm_compute; reflexivity).
  assert (Hdir : is_Some (fs Corpus.first_pass.2 !! "img")).
  { exists Dir. vm_compute. reflexivity. }
  split; [exact Hjson|]. split; [exact Hnd|]. split; [exact H|].
  split; [exact Hcan|]. split; [exact Hne|]. split; [exact Hdir|].
  split; [reflexivity|].
  apply (second_pass_renders_nothing dict_hash from_dict
           savechart create_thumbnail int_beyond "img" "static/gray.png" true
           png_output_available Json.load Json.dump [bar; area]
           (start static_only [true; true]) Corpus.first_pass.2 Corpus.second_start);
    [exact Hjson|exact Hnd|exact H|exact Hcan|exact Hne|exact Hdir|reflexivity].
Defined.


(** A ledger file that holds an empty list. *)
Lemma non_dict_ledger_raises_witness :
  fs (start list_ledger [true]) !! hash_file_of "img" = Some (File "[]") ∧
  Json.load "[]" = Some (VList []) ∧
  (∀ h, VList [] ≠ VDict h) ∧
  [bar] = bar :: [] ∧
  make_images [bar] "img" "static/gray.png" true (start list_ledger [true])
  = bind (prepare png_output_available "img")
      (λ _ s1, (Raise AttributeError, set_hashes (VList []) s1))
      (start list_ledger [true]) ∧
  make_images [bar] "img" "static/gray.png" true (start list_ledger [true])
  = (Raise AttributeError,
     set_hashes (VList []) (set_can_save true (start list_ledger [true]))).
Proof.
  assert (H : make_images [bar] "img" "static/gray.png" true (start list_ledger [true])
              = bind (prepare png_output_available "img")
                  (λ _ s1, (Raise AttributeError, set_hashes (VList []) s1))
                  (start list_ledger [true])).
  { apply (non_dict_ledger_raises dict_hash from_dict savechart
             create_thumbnail int_beyond "img" "static/gray.png" true
             png_output_available Json.load Json.dump [bar]
             (start list_ledger [true]) "[]" (VList []) bar []);
      [reflexivity|reflexivity|discriminate|reflexivity]. }
  split; [reflexivity|]. split; [reflexivity|]. split; [discriminate|].
  split; [reflexivity|]. split; [exact H|]. vm_compute. reflexivity.
Defined.

Lemma backwards_Permutation seed (l : list (@gallery_example Utils.json)) :
  Corpus.backwards seed l ≡ₚ l.
Proof. apply reverse_Permutation. Qed.

Lemma examples_of_category_witness :
  (∀ seed l, Corpus.backwards seed l ≡ₚ l) ∧
  selected_examples Corpus.backwards Corpus.listed None (Some "bars") true 42
  ≡ₚ filter (λ ex, category ex = "bars") Corpus.listed.
Proof.
  split; [exact backwards_Permutation|].
  apply (examples_of_category Corpus.backwards Corpus.listed "bars" true 42).
  exact backwards_Permutation.
Defined.

Lemma examples_from_corpus_witness :
  (∀ seed l, Corpus.backwards seed l ≡ₚ l) ∧
  selected_examples Corpus.backwards Corpus.listed (Some 1) (Some "bars") true 42
  ⊆+ filter (λ ex, category ex = "bars") Corpus.listed.
Proof.
  split; [exact backwards_Permutation|].
  apply (examples_from_corpus Corpus.backwards Corpus.listed (Some 1) (Some "bars") true 42).
  exact backwards_Permutation.
Defined.

(** All but the last of the four examples, sorted by name and then put
    backwards. *)
Lemma examples_count_witness :
  (∀ seed l, Corpus.backwards seed l ≡ₚ l) ∧
  ∃ dropped,
    selected_examples Corpus.backwards Corpus.listed None None true 42
    = selected_examples Corpus.backwards Corpus.listed (Some (-1)) None true 42
      ++ dropped ∧
    length (selected_examples Corpus.backwards Corpus.listed (Some (-1)) None true 42)
    = if decide (0 ≤ -1)
      then (Z.to_nat (-1) `min` length Corpus.listed)%nat
      else (length Corpus.listed - Z.to_nat (- -1))%nat.
Proof.
  split; [exact backwards_Permutation|].
  apply (examples_count Corpus.backwards Corpus.listed (-1) None true 42).
  exact backwards_Permutation.
Defined.

Lemma examples_prefix_witness :
  0 ≤ 1 ∧ 1 ≤ 3 ∧
  selected_examples Corpus.backwards Corpus.listed (Some 1) None false 42
  `prefix_of` selected_examples Corpus.backwards Corpus.listed (Some 3) None false 42.
Proof.
  split; [lia|]. split; [lia|].
  apply (examples_prefix Corpus.backwards Corpus.listed 1 3 None false 42); lia.
Defined.

End MoreWitnesses.
